(* ===== verification/_CoqProject ===== *)
-Q . S2P
Prelude.v
Schema.v
Table.v
Session.v
Handlers.v
Startup.v
App.v
Server.v
Http.v
Concurrent.v
Crud.v
