(* ===== verification/Prelude.v ===== *)
(** * The items CRUD service of src/main.py, modelled and verified

    ** The program

    src/main.py is a FastAPI application over SQLAlchemy and PostgreSQL,
    with one resource, [items].  Its parts, leaves first:
    - the mapped class [ItemDB] (lines 18-23), which
      [Base.metadata.create_all] turns into the table
      [items(id SERIAL PRIMARY KEY, nome, descricao, preco)];
    - the pydantic models [ItemBase], [ItemCreate], [Item] (lines 26-37);
    - the session factory [SessionLocal] (line 14) and the dependency
      [get_db] (lines 43-48), which opens a session per request and closes
      it in [finally];
    - [startup_event] (lines 51-63), which retries [create_all] up to ten
      times with a five-second sleep after each failure;
    - five handlers (lines 67-108), each a fixed sequence of session calls:
      [create_item] (add, commit, refresh), [read_items] (offset/limit
      query), [read_item], [update_item] (query, setattr loop, commit,
      refresh), [delete_item] (query, delete, commit).
    A request flows: FastAPI calls [get_db], runs the handler on the
    session, serialises the returned object through [response_model]
    ([from_attributes]), and [get_db] closes the session.

    ** The files

    - [Prelude] (this file): the state-and-exception monad [st] in which
      every database-touching computation is written ([Ret]/[Raise] with
      the state at the return or raise point, so that [finally] clauses can
      run on it), its notation in [py_scope], [st_mapM]/[st_iter] for
      Python [for] loops, the bounds [INT4_MAX] and [INT8_MAX] of
      PostgreSQL's [integer] and [bigint], the hint databases [py] and
      [py_rw], and the list lemmas the components share.
    - [Schema]: Python values [pyval] and Python's [==] on them ([py_eqb]:
      IEEE equality on floats, so [0.0 == -0.0], and the exact comparison
      of an [int] with a [float]); [Pyd] (the pydantic models,
      [item.dict()], the lax-mode field validators); [Orm] (the attributes
      of an [ItemDB] instance, [getattr]/[setattr], the declarative
      constructor, and [to_item], the [from_attributes] validation of a
      response).
    - [Table]: the [items] table as a list of rows in heap order with the
      sequence [items_id_seq], and the statements the session emits
      ([select_by_id], [select_page], [nextval], [insert_row], the keyed
      [update_by_id] with a SET clause of only some columns, and
      [delete_by_id]); the invariant [wf] (unique keys, all issued by the
      sequence, sequence within [integer]); the abstraction [view] of the
      table as a [gmap] from key to columns.
    - [Session]: the SQLAlchemy session as explicit state (the database,
      the open transaction's rows, the instances by handle) and the
      operations the handlers call.  Each instance carries its attribute
      history ([o_committed]: the value of a column before its first
      assignment), and loading a row goes through the identity map: a
      row already present answers the same instance, refreshed only if
      expired.  [commit] runs the unit of work: inserts, then for each
      persistent instance an [UPDATE] whose SET clause ([set_clause])
      holds only the columns whose new value is not [==] to the recorded
      one (none at all when nothing changed), then deletes, then expire.
      The sequence is non-transactional.  [get_db] runs a request body on
      a fresh session and returns the database after [close].
    - [Handlers]: the five handlers as compositions of session calls, the
      serialisation FastAPI applies, [request] (handler + serialisation
      inside [get_db]), the routes as one request type [Req] with
      [read_items]'s query defaults and [serve], the invariant [good]
      ([wf] plus non-[NULL] [nome] and [preco]); the [*_run] lemmas giving
      each handler's exact answer and database on every branch ([put_set]
      is the SET clause a [PUT] flushes, [stored_base] the fields it
      leaves), the route-level specifications against [view], and
      [serve_outcome]: every exception a request can raise is a session
      error or the 404.
    - [Startup]: [startup_event] as a structural loop over ten attempts
      with an oracle giving the outcome of each attempt's [create_all]:
      success, or the text of the exception, which the retry message
      prints.
    - [App]: the invariant [good] after every request, and the scenarios
      of the specification's testable properties, each a sequence of
      requests through [serve].
    - [Server]: the process lifecycle as a step relation (startup, requests
      one at a time, stop and restart) and the invariant of every state
      reachable from a fresh database.
    - [Http]: [Config] (line 10: [DATABASE_URL] or its default) and [Http],
      what a client sees: JSON values, the route table of the decorators
      (each route takes only its decorator's method; FastAPI does not add
      [HEAD]) and Starlette's router (405, the [redirect_slashes]
      redirect, 404), the
      validation of path, query and body parameters with its 422 answer,
      [JSONResponse]'s rendering (non-finite floats refused), and [app],
      the whole ASGI application over [serve].  Pydantic's lax coercions
      are the classes [IntSyntax] and [FloatSyntax] with their laws.
    - [Concurrent]: requests in flight as threads that execute one SQL
      statement per step on the shared table under READ COMMITTED with
      row locks; [pstep] is the interleaving semantics of the thread pool.
      A [PUT] thread keeps the row it loaded and flushes [put_set] of it.
    - [Crud]: the service's contract as an abstract state machine
      ([AState]: the items by id and the ids ever issued; [astep]: what
      each request may answer and how the items change, with a list
      answering a slice of some order of the items), the interface
      [CrudService]/[CrudServiceOk] (operations, then their laws: an
      invariant kept by every request and refinement of [astep]), its
      instance for [serve] with the abstraction [abs], and the client
      theorems proved against the interface alone.

    Components interact through [serve] (Handlers), which [App], [Server],
    [Http], [Concurrent] and [Crud] all call or refine; the session
    operations are the only code that touches the table's statements.

    ** What is proved (claims C1-C32, most important first)

    - Each route's behaviour on every branch, against the abstract view:
      create appends the given fields under the fresh key [db_seq + 1]
      (C1), read answers the view's entry or 404 (C2), update writes the
      changed fields or 404 without inserting (C3: a price [==] to the
      stored one, such as [-0.0] for [0.0], is kept), delete removes it or
      404 (C4), list answers [min limit (n - skip)] distinct stored items
      (C5); negative [skip]/[limit] (C6) and an exhausted sequence (C13)
      are server errors that change nothing.
    - Refinement: every sequence of requests from a good table is a trace
      of the contract [astep] under [abs] (C7), and so the ids answered by
      creations are distinct and never reused after a delete (C11).
    - Composition: a request run alone as statements answers what [serve]
      answers (C8); the HTTP layer routes and validates every well-formed
      call to the handler's answer (C9).
    - Invariants: [good] holds after every statement of every
      interleaving (C10), after every request, which also returns or
      changes nothing (C14), and in every reachable server state (C15), by
      induction on the step relations.
    - Concurrency: no deadlock, the requests in flight can always all be
      answered (C16).  The races the specification does not mention, each
      shown possible from every table where its preconditions hold (a
      schedule of statements run symbolically): two [PUT]s that load the
      row before either writes merge into a row neither sent, and both
      answer it (C12); a [PUT] raced by a [DELETE] answers 500, not 404
      (C17); two [DELETE]s both confirm (C27); a [POST] can answer 500
      with its row committed (C28).
    - HTTP: a non-finite price is stored but never rendered (C18); every
      200 JSON body has the response model's shape (C19); a validation
      failure answers 422 without running the handler (C20); the body
      validator's exact acceptance (C21); the route table, with [HEAD]
      answered 405 and Starlette's slash-stripping redirect (C22).
    - The specification's scenarios: create/read round trip (C23), delete
      then read is 404 (C24), update then read (C25), three inserts then
      list with defaults and with [limit=1] (C26).
    - The table: the key [nextval] hands out never violates the primary
      key, and every statement preserves [wf] (C29).
    - Startup: success after [j + 1] attempts and [5 j] seconds when
      attempt [j] is the first to succeed, with each failure's message in
      order (C30); failure after ten attempts, ten messages and fifty
      seconds (C31); it starts iff some attempt in ten succeeds (C32).

    ** Bounds and modelling choices

    - Keys are [Z] kept within [integer]: [nextval] fails past [INT4_MAX];
      [OFFSET]/[LIMIT] are [bigint] and fail when negative or out of
      range.  Every loop of the code (the retry loop, the flush loops, the
      page loops, validation) is structural recursion on a list or a
      counter.  The thread pool's runs terminate by a measure (the
      statements left, [total]), and [run_alone] takes [remaining] steps
      as its fuel, which C8 proves is enough.  A race is shown by a fixed
      schedule of thread indices run on a symbolic pool ([run_sched],
      tactic [run_sched_steps]), the table's statements rewritten by the
      facts that hold of any table meeting the preconditions.
    - Rows are kept in heap order, appended on insert and updated in
      place; the specification promises no order, and the theorems about
      lists state counts, keys and membership only (the contract lets a
      list answer any permutation of the items).
    - The sequence lives outside the transaction ([Session.nextval_sm]):
      a rolled-back insert keeps its consumed value.
    - Concurrency is at statement granularity; a write becomes visible at
      its transaction's [COMMIT], and a writer meeting a locked row is not
      enabled until the holder commits.
    - Prices are primitive floats ([PrimFloat.float]); the code stores,
      compares ([==] in the attribute history), validates and renders
      them.

    ** Not modelled

    - [create_engine] and the connection pool: pure I/O; the URL choice
      is modelled ([Config]).
    - The decoding of the raw body bytes to a JSON value (the HTTP layer
      starts from a decoded object), and the fields [msg] and [input] of a
      422 answer (only [loc] and the error kind are kept): they are text
      produced by the libraries, not by src/main.py.
    - The library coercions themselves beyond their laws: the theorems
      hold for any [IntSyntax]/[FloatSyntax] instance that satisfies them.
    - The HTTP server in front of the ASGI application (uvicorn or the
      like): the connection, and its dropping of a body sent to a [HEAD]
      request; the answers are the ones the application sends.  The
      [location] of a redirect is kept as its path (the scheme, host and
      query of the URL are not).
    - SQLAlchemy's mapper beyond what the handlers reach: relationships,
      autoflush on query (the handlers never query with pending changes)
      and the assignment of a primary key by the application (never done:
      the key always comes from the sequence). *)

From stdpp Require Import base list gmap strings.
From Corelib Require Import PrimFloat.

(** ** Python-style effects: a state monad with exceptions

    Every piece of the service that touches the database threads a state
    (an ORM session, the database) and may raise a Python exception.
    A computation returns the outcome together with the state reached at
    the point where it returned or raised: the state at a raise matters,
    because the [finally] clause of [get_db] still runs on it. *)

Inductive outcome (E A : Type) : Type :=
  | Ret (a : A)
  | Raise (e : E).
Arguments Ret {E A} a.
Arguments Raise {E A} e.

(** A computation that returned rather than raised. *)
Definition is_Ret {E A} (o : outcome E A) : Prop := match o with Ret _ => True | Raise _ => False end.

Definition st (S E A : Type) : Type := S -> outcome E A * S.

Definition st_ret {S E A} (a : A) : st S E A := fun s => (Ret a, s).

Definition st_raise {S E A} (e : E) : st S E A := fun s => (Raise e, s).

Definition st_bind {S E A B} (m : st S E A) (k : A -> st S E B) : st S E B :=
  fun s =>
    match m s with
    | (Ret a, s') => k a s'
    | (Raise e, s') => (Raise e, s')
    end.

Definition st_get {S E} : st S E S := fun s => (Ret s, s).

Definition st_modify {S E} (f : S -> S) : st S E unit := fun s => (Ret tt, f s).

(** Lift a pure outcome (an SQL statement's result) into the monad. *)
Definition st_lift {S E A} (o : outcome E A) : st S E A := fun s => (o, s).

(** [for x in l: f(x)] collecting the results, and without them. *)
Fixpoint st_mapM {S E A B} (f : A -> st S E B) (l : list A) : st S E (list B) :=
  match l with
  | [] => st_ret []
  | x :: l' => st_bind (f x) (fun y => st_bind (st_mapM f l') (fun ys => st_ret (y :: ys)))
  end.

Fixpoint st_iter {S E A} (f : A -> st S E unit) (l : list A) : st S E unit :=
  match l with
  | [] => st_ret tt
  | x :: l' => st_bind (f x) (fun _ => st_iter f l')
  end.

(** Raise [e] when a partial Python operation fails. *)
Definition st_of_option {S E A} (e : E) (o : option A) : st S E A :=
  match o with Some a => st_ret a | None => st_raise e end.

Declare Scope py_scope.
Delimit Scope py_scope with py.

Notation "x <- m ;; k" := (st_bind m (fun x => k))
  (at level 100, m at next level, right associativity) : py_scope.
Notation "m ;;; k" := (st_bind m (fun _ => k))
  (at level 100, right associativity) : py_scope.

(** ** Machine-width bounds of the PostgreSQL types involved *)

(** [INTEGER] (int4): the type of the [items.id] column and of its
    [SERIAL] sequence [items_id_seq]. *)
Definition INT4_MAX : Z := 2147483647.

(** [BIGINT] (int8): the type of the [OFFSET] and [LIMIT] arguments. *)
Definition INT8_MAX : Z := 9223372036854775807.

(** ** Automation *)

Create HintDb py discriminated.
Create Rewrite HintDb py_rw.

Section Monad.
Context {S E : Type}.

Lemma st_bind_Ret {A B} (m : st S E A) (k : A -> st S E B) s a s' :
  m s = (Ret a, s') -> st_bind m k s = k a s'.
Proof. unfold st_bind. by intros ->. Qed.

Lemma st_bind_Raise {A B} (m : st S E A) (k : A -> st S E B) s e s' :
  m s = (Raise e, s') -> st_bind m k s = (Raise e, s').
Proof. unfold st_bind. by intros ->. Qed.

Lemma st_bind_ret_l {A B} (a : A) (k : A -> st S E B) s :
  st_bind (st_ret a) k s = k a s.
Proof. done. Qed.

Lemma st_bind_assoc {A B C} (m : st S E A) (k : A -> st S E B)
      (k' : B -> st S E C) s :
  st_bind (st_bind m k) k' s = st_bind m (fun a => st_bind (k a) k') s.
Proof. unfold st_bind. by destruct (m s) as [[a|e] s']. Qed.

(** A state predicate preserved by every step of a computation. *)
Definition st_preserves {A} (P : S -> Prop) (m : st S E A) : Prop :=
  forall s, P s -> P (m s).2.

Lemma st_preserves_ret {A} P (a : A) : st_preserves P (st_ret a).
Proof. by intros s Hs. Qed.

Lemma st_preserves_raise {A} P (e : E) : st_preserves (A:=A) P (st_raise e).
Proof. by intros s Hs. Qed.

Lemma st_preserves_lift {A} P (o : outcome E A) : st_preserves P (st_lift o).
Proof. by intros s Hs. Qed.

Lemma st_preserves_bind {A B} P (m : st S E A) (k : A -> st S E B) :
  st_preserves P m -> (forall a, st_preserves P (k a)) ->
  st_preserves P (st_bind m k).
Proof.
  intros Hm Hk s Hs. unfold st_bind.
  specialize (Hm s Hs). destruct (m s) as [[a|e] s']; simpl in *; auto.
  by apply Hk.
Qed.
Lemma st_preserves_mapM {A B} P (f : A -> st S E B) (l : list A) :
  (forall x, st_preserves P (f x)) -> st_preserves P (st_mapM f l).
Proof.
  intros Hf. induction l as [|x l IH]; simpl; [apply st_preserves_ret|].
  apply st_preserves_bind; [done|]. intros y.
  apply st_preserves_bind; [done|]. intros ys. apply st_preserves_ret.
Qed.

Lemma st_preserves_iter {A} P (f : A -> st S E unit) (l : list A) :
  (forall x, st_preserves P (f x)) -> st_preserves P (st_iter f l).
Proof.
  intros Hf. induction l as [|x l IH]; simpl; [apply st_preserves_ret|].
  by apply st_preserves_bind.
Qed.

Lemma st_preserves_of_option {A} P (e : E) (o : option A) :
  st_preserves P (st_of_option e o).
Proof. destruct o; [apply st_preserves_ret|apply st_preserves_raise]. Qed.

(** What a computation can return ([P]) and raise ([Q]), from any state:
    a total-correctness postcondition without precondition. *)
Definition st_post {A} (P : A -> Prop) (Q : E -> Prop) (m : st S E A) : Prop :=
  forall s, match (m s).1 with Ret a => P a | Raise e => Q e end.

Lemma st_post_ret {A} (P : A -> Prop) Q (a : A) : P a -> st_post P Q (st_ret a).
Proof. by intros Ha s. Qed.

Lemma st_post_raise {A} (P : A -> Prop) (Q : E -> Prop) (e : E) :
  Q e -> st_post P Q (st_raise e).
Proof. by intros He s. Qed.

Lemma st_post_lift {A} (P : A -> Prop) Q (o : outcome E A) :
  match o with Ret a => P a | Raise e => Q e end -> st_post P Q (st_lift o).
Proof. by intros Ho s. Qed.

Lemma st_post_get (Q : E -> Prop) : st_post (fun _ => True) Q st_get.
Proof. by intros s. Qed.

Lemma st_post_modify (Q : E -> Prop) (f : S -> S) : st_post (fun _ => True) Q (st_modify f).
Proof. by intros s. Qed.

Lemma st_post_bind {A B} (P1 : A -> Prop) (P : B -> Prop) Q (m : st S E A)
      (k : A -> st S E B) :
  st_post P1 Q m -> (forall a, P1 a -> st_post P Q (k a)) -> st_post P Q (st_bind m k).
Proof.
  intros Hm Hk s. unfold st_bind. specialize (Hm s).
  destruct (m s) as [[a|e] s']; simpl in *; [by apply Hk|done].
Qed.

Lemma st_post_weaken {A} (P P' : A -> Prop) (Q Q' : E -> Prop) (m : st S E A) :
  st_post P Q m -> (forall a, P a -> P' a) -> (forall e, Q e -> Q' e) -> st_post P' Q' m.
Proof. intros Hm HP HQ s. specialize (Hm s). destruct (m s).1; auto. Qed.

Lemma st_post_mapM {A B} (Q : E -> Prop) (f : A -> st S E B) (l : list A) :
  (forall x, st_post (fun _ => True) Q (f x)) -> st_post (fun _ => True) Q (st_mapM f l).
Proof.
  intros Hf. induction l as [|x l IH]; simpl; [by apply st_post_ret|].
  apply (st_post_bind (fun _ => True)); [done|]. intros y _.
  apply (st_post_bind (fun _ => True)); [done|]. intros ys _. by apply st_post_ret.
Qed.

Lemma st_post_iter {A} (Q : E -> Prop) (f : A -> st S E unit) (l : list A) :
  (forall x, st_post (fun _ => True) Q (f x)) -> st_post (fun _ => True) Q (st_iter f l).
Proof.
  intros Hf. induction l as [|x l IH]; simpl; [by apply st_post_ret|].
  apply (st_post_bind (fun _ => True)); [done|]. by intros.
Qed.

Lemma st_post_of_option {A} (Q : E -> Prop) (e : E) (o : option A) :
  Q e -> st_post (fun _ => True) Q (st_of_option e o).
Proof. intros He. destruct o; [by apply st_post_ret|by apply st_post_raise]. Qed.
End Monad.

#[export] Hint Rewrite @st_bind_ret_l @st_bind_assoc : py_rw.
#[export] Hint Resolve st_preserves_ret st_preserves_raise st_preserves_lift
  st_preserves_bind st_preserves_mapM st_preserves_iter st_preserves_of_option : py.

(** Unfold the monad's plumbing in a goal about a concrete computation. *)
Ltac st_simpl :=
  repeat (unfold st_bind, st_ret, st_raise, st_get, st_modify, st_lift in *;
          simpl in *).

(** Prove [st_preserves P c] by decomposing [c] along its binds. *)
Ltac st_preserve :=
  repeat first [ apply st_preserves_bind; [|intros ?]
               | apply st_preserves_ret | apply st_preserves_raise
               | apply st_preserves_lift ].

(** One step of a proof of [st_post P Q c] along the binds of [c]: an
    intermediate result is unconstrained; a named operation is left to
    the caller. *)
Ltac st_post_step :=
  first [ apply (st_post_bind (fun _ => True)); [|intros ? _]
        | apply st_post_ret; try done
        | apply st_post_raise; try done
        | apply st_post_lift
        | apply st_post_get
        | apply st_post_modify
        | apply st_post_iter; intros ?
        | apply st_post_mapM; intros ?
        | apply st_post_of_option; try done ].

(** ** Generic lemmas on lists shared by the components *)

Lemma length_take_drop {A} (l : list A) (skip limit : nat) :
  length (take limit (drop skip l)) = limit `min` (length l - skip).
Proof. by rewrite length_take, length_drop. Qed.
