(* ===== verification/Schema.v ===== *)
(** * Schema: the data shapes of src/main.py

    The pydantic models [ItemBase], [ItemCreate] and [Item] (lines 26-37),
    the attributes of an instance of the mapped class [ItemDB]
    (lines 18-23), [item.dict()], [setattr], the declarative constructor
    [ItemDB( **kw)] and the [from_attributes] validation FastAPI applies to
    a handler's return value when [response_model=Item]. *)

From stdpp Require Import base list strings.
From Corelib Require Import PrimFloat SpecFloat FloatOps.
From S2P Require Import Prelude.

(** ** Python values held by the attributes and dictionaries involved *)

Inductive pyval : Type :=
  | PNone
  | PInt (z : Z)
  | PFloat (f : float)
  | PStr (s : string).

(** [float(z)] for a Python [int]: round to nearest, ties to even. *)
Definition Z2float (z : Z) : float :=
  SF2Prim (binary_normalize prec emax z 0 false).

(** Python's [x == y] on these values, which SQLAlchemy's [String] and
    [Float] use to compare an assigned value with the loaded one
    ([TypeEngine.compare_values]): [None] equals only [None], strings
    compare by contents, numbers by value ([0.0 == -0.0], [nan != nan]),
    and an [int] equals a [float] holding exactly its value. *)
Definition float_eq_int (f : float) (z : Z) : bool :=
  match Prim2SF f with
  | S754_zero _ => Z.eqb z 0
  | S754_finite s m e =>
      let v := if s then Z.neg m else Z.pos m in
      if Z.leb 0 e then Z.eqb z (v * 2 ^ e)
      else Z.eqb (v mod 2 ^ (- e)) 0 && Z.eqb z (v / 2 ^ (- e))
  | _ => false
  end.

Definition py_eqb (v w : pyval) : bool :=
  match v, w with
  | PNone, PNone => true
  | PInt a, PInt b => Z.eqb a b
  | PFloat f, PFloat g => PrimFloat.eqb f g
  | PInt a, PFloat g => float_eq_int g a
  | PFloat f, PInt b => float_eq_int f b
  | PStr a, PStr b => bool_decide (a = b)
  | _, _ => false
  end.

Module Pyd.

(** [class ItemBase(BaseModel)]: [nome: str], [descricao: Optional[str]
    = None], [preco: float].  [class ItemCreate(ItemBase): pass] adds
    nothing, so it is the same record. *)
Record ItemBase : Type := mkItemBase {
  nome : string;
  descricao : option string;
  preco : float
}.

Definition ItemCreate : Type := ItemBase.

(** [class Item(ItemBase)] adds [id: int] to the inherited fields. *)
Record Item : Type := mkItem {
  item_base : ItemBase;
  id : Z
}.

(** [Optional[str]] as a Python value. *)
Definition opt_str (o : option string) : pyval :=
  match o with Some s => PStr s | None => PNone end.

(** [item.dict()]: the fields in declaration order. *)
Definition dict (b : ItemBase) : list (string * pyval) :=
  [("nome", PStr (nome b)); ("descricao", opt_str (descricao b));
   ("preco", PFloat (preco b))].

(** Field validators of pydantic's lax mode, on the Python values the
    [ItemDB] attributes hold here: a [str] field takes a [str]; an
    [Optional[str]] field takes [None] or a [str]; a [float] field takes
    a [float] or an [int]; an [int] field takes an [int]. *)
Definition validate_str (v : pyval) : option string :=
  match v with PStr s => Some s | _ => None end.

Definition validate_opt_str (v : pyval) : option (option string) :=
  match v with
  | PNone => Some None
  | PStr s => Some (Some s)
  | _ => None
  end.

(** An [int] is taken when [float(z)] does not overflow. *)
Definition validate_float (v : pyval) : option float :=
  match v with
  | PFloat f => Some f
  | PInt z => if PrimFloat.is_finite (Z2float z) then Some (Z2float z) else None
  | _ => None
  end.

Definition validate_int (v : pyval) : option Z :=
  match v with PInt z => Some z | _ => None end.

End Pyd.

Module Orm.

(** The column attributes of an [ItemDB] instance.  An attribute never
    assigned reads as [None]. *)
Record ItemDB : Type := mkItemDB {
  attr_id : pyval;
  attr_nome : pyval;
  attr_descricao : pyval;
  attr_preco : pyval
}.

Definition blank : ItemDB := mkItemDB PNone PNone PNone PNone.

(** [hasattr(ItemDB, k)] for the keys that reach the constructor: the
    mapped columns. *)
Definition is_column (k : string) : bool :=
  bool_decide (k = "id" \/ k = "nome" \/ k = "descricao" \/ k = "preco").

(** [setattr(obj, k, v)].  A key that is not a column sets a plain
    instance attribute the mapper never reads: the columns are unchanged. *)
Definition setattr (o : ItemDB) (k : string) (v : pyval) : ItemDB :=
  if bool_decide (k = "id") then
    mkItemDB v (attr_nome o) (attr_descricao o) (attr_preco o)
  else if bool_decide (k = "nome") then
    mkItemDB (attr_id o) v (attr_descricao o) (attr_preco o)
  else if bool_decide (k = "descricao") then
    mkItemDB (attr_id o) (attr_nome o) v (attr_preco o)
  else if bool_decide (k = "preco") then
    mkItemDB (attr_id o) (attr_nome o) (attr_descricao o) v
  else o.

(** [getattr(obj, k)] for a column [k]. *)
Definition getattr (o : ItemDB) (k : string) : pyval :=
  if bool_decide (k = "id") then attr_id o
  else if bool_decide (k = "nome") then attr_nome o
  else if bool_decide (k = "descricao") then attr_descricao o
  else if bool_decide (k = "preco") then attr_preco o
  else PNone.

(** The declarative constructor [ItemDB( **kw)]: every key must be an
    attribute of the class, or it raises [TypeError] ([None] here). *)
Fixpoint init_loop (o : ItemDB) (kw : list (string * pyval)) : option ItemDB :=
  match kw with
  | [] => Some o
  | (k, v) :: kw' => if is_column k then init_loop (setattr o k v) kw' else None
  end.

Definition ItemDB_new (kw : list (string * pyval)) : option ItemDB :=
  init_loop blank kw.

(** [Item.model_validate(obj)] with [from_attributes = True]: what FastAPI
    does with the object a handler returns under [response_model=Item].
    A failure is a [ResponseValidationError] (HTTP 500). *)
Definition to_item (o : ItemDB) : option Pyd.Item :=
  match Pyd.validate_str (attr_nome o), Pyd.validate_opt_str (attr_descricao o),
        Pyd.validate_float (attr_preco o), Pyd.validate_int (attr_id o) with
  | Some n, Some d, Some p, Some i => Some (Pyd.mkItem (Pyd.mkItemBase n d p) i)
  | _, _, _, _ => None
  end.

End Orm.

