(* ===== verification/Table.v ===== *)
(** * Table: the [items] table and its [SERIAL] sequence

    What [Base.metadata.create_all] creates for [class ItemDB] (src/main.py
    lines 18-23): the table [items(id INTEGER PRIMARY KEY, nome VARCHAR,
    descricao VARCHAR, preco FLOAT)] whose [id] defaults to
    [nextval('items_id_seq')].  The data columns are nullable (no
    [nullable=False]).  Rows are kept in heap (scan) order, which is the
    order a query without [ORDER BY] returns.  The statements are the ones
    the ORM session emits for the handlers: [SELECT ... WHERE id = :id LIMIT 1],
    [SELECT ... OFFSET :skip LIMIT :limit], [INSERT], [UPDATE ... SET <some columns> WHERE id]
    and [DELETE ... WHERE id]. *)

From stdpp Require Import base list gmap strings.
From Corelib Require Import PrimFloat.
From S2P Require Import Prelude.

Module Table.
Local Open Scope Z_scope.

Record Row : Type := mkRow {
  row_id : Z;
  row_nome : option string;
  row_descricao : option string;
  row_preco : option float
}.

(** The data columns of a row, as written by [INSERT] and [UPDATE]. *)
Definition Cols : Type := option string * option string * option float.

Definition cols (r : Row) : Cols := (row_nome r, row_descricao r, row_preco r).

Definition with_cols (k : Z) (c : Cols) : Row := mkRow k c.1.1 c.1.2 c.2.

(** The database once the table exists: the committed rows of [items] and
    the last value handed out by [items_id_seq] ([0]: never called).  The
    sequence is not transactional: a rolled-back insert keeps the value
    it consumed. *)
Record Db : Type := mkDb {
  db_rows : list Row;
  db_seq : Z
}.

(** A freshly created table. *)
Definition empty_db : Db := mkDb [] 0.

Inductive DbError : Type :=
  | UniqueViolation (k : Z)          (** duplicate key value violates "items_pkey" *)
  | SequenceExhausted                (** nextval: reached maximum value of sequence *)
  | NegativeOffset                   (** OFFSET must not be negative *)
  | NegativeLimit                    (** LIMIT must not be negative *)
  | BigintOutOfRange                 (** bigint out of range *)
  | DatatypeMismatch.                (** a parameter of the wrong type for its column *)

(** [SELECT ... FROM items WHERE items.id = :id LIMIT 1] ([Query.first]). *)
Definition select_by_id (k : Z) (rows : list Row) : option Row :=
  List.find (fun r => Z.eqb (row_id r) k) rows.

Definition in_int8 (z : Z) : bool := Z.leb (- INT8_MAX - 1) z && Z.leb z INT8_MAX.

(** [SELECT ... FROM items OFFSET :skip LIMIT :limit] ([Query.offset(skip)
    .limit(limit).all()]).  Both arguments are [bigint]; a negative one is
    an error. *)
Definition select_page (skip limit : Z) (rows : list Row) : outcome DbError (list Row) :=
  if negb (in_int8 skip && in_int8 limit) then Raise BigintOutOfRange
  else if Z.ltb skip 0 then Raise NegativeOffset
  else if Z.ltb limit 0 then Raise NegativeLimit
  else Ret (take (Z.to_nat limit) (drop (Z.to_nat skip) rows)).

(** [nextval('items_id_seq')]: an [integer] sequence starting at 1. *)
Definition nextval (seq : Z) : outcome DbError Z :=
  if Z.ltb seq INT4_MAX then Ret (seq + 1) else Raise SequenceExhausted.

Definition has_id (k : Z) (rows : list Row) : bool :=
  existsb (fun r => Z.eqb (row_id r) k) rows.

(** [INSERT INTO items (id, nome, descricao, preco) VALUES (...)]: the
    primary key must be new; the row goes to the end of the heap. *)
Definition insert_row (r : Row) (rows : list Row) : outcome DbError (list Row) :=
  if has_id (row_id r) rows then Raise (UniqueViolation (row_id r))
  else Ret (rows ++ [r]).

(** The [SET] clause of an [UPDATE]: the new value of each data column
    it assigns ([None]: the column is not in the clause). *)
Definition ColsSet : Type := option (option string) * option (option string) * option (option float).

Definition set_cols (c : Cols) (u : ColsSet) : Cols :=
  (default c.1.1 u.1.1, default c.1.2 u.1.2, default c.2 u.2).

(** [SET nome=.., descricao=.., preco=..]: every data column. *)
Definition set_all (c : Cols) : ColsSet := (Some c.1.1, Some c.1.2, Some c.2).

(** [UPDATE items SET .. WHERE items.id = :id]: the number of rows
    matched and the new rows; each matched row keeps the columns the
    clause does not assign. *)
Definition update_by_id (k : Z) (u : ColsSet) (rows : list Row) : nat * list Row :=
  (length (filter (fun r => row_id r = k) rows),
   map (fun r => if Z.eqb (row_id r) k then with_cols k (set_cols (cols r) u) else r) rows).

(** [DELETE FROM items WHERE items.id = :id]: rows matched, rows left. *)
Definition delete_by_id (k : Z) (rows : list Row) : nat * list Row :=
  (length (filter (fun r => row_id r = k) rows),
   filter (fun r => row_id r <> k) rows).

(** A two-row table used by the examples below. *)
Definition sample_db : Db :=
  mkDb [mkRow 1 (Some "Pen") None (Some 1.5%float);
        mkRow 2 (Some "Cup") (Some "blue") (Some 3.0%float)] 2.

(** ** Well-formedness: what the table and the sequence guarantee together *)

Definition ids (rows : list Row) : list Z := map row_id rows.

Definition wf (db : Db) : Prop :=
  NoDup (ids (db_rows db)) /\
  Forall (fun r => 1 <= row_id r <= db_seq db) (db_rows db) /\
  0 <= db_seq db <= INT4_MAX.

#[export] Instance wf_dec (db : Db) : Decision (wf db).
Proof. unfold wf. apply _. Defined.

(** ** Abstract view: the table as a finite map from key to columns *)

Definition view (rows : list Row) : gmap Z Cols :=
  list_to_map (map (fun r => (row_id r, cols r)) rows).


(** ** The statements refine operations on the abstract view *)

Lemma view_nil : view [] = ∅.
Proof. done. Qed.

Lemma view_cons (r : Row) (rs : list Row) :
  view (r :: rs) = <[row_id r := cols r]> (view rs).
Proof. done. Qed.

Lemma has_id_cons k r rs : has_id k (r :: rs) = (Z.eqb (row_id r) k || has_id k rs)%bool.
Proof. done. Qed.

Lemma cols_with_cols (k : Z) (c : Cols) : cols (with_cols k c) = c.
Proof. by destruct c as [[? ?] ?]. Qed.

#[local] Hint Rewrite view_nil view_cons has_id_cons cols_with_cols : py_rw.

Lemma has_id_view (k : Z) (rows : list Row) :
  has_id k rows = true <-> is_Some (view rows !! k).
Proof.
  induction rows as [|r rs IH]; autorewrite with py_rw.
  - rewrite lookup_empty. split; [done|]. by intros [? ?].
  - rewrite orb_true_iff, IH, lookup_insert.
    destruct (Z.eqb_spec (row_id r) k); case_decide; naive_solver.
Qed.

Lemma view_select_by_id (k : Z) (rows : list Row) :
  view rows !! k = cols <$> select_by_id k rows.
Proof.
  induction rows as [|r rs IH]; autorewrite with py_rw; [done|].
  unfold select_by_id in *; simpl. rewrite lookup_insert.
  destruct (Z.eqb_spec (row_id r) k); case_decide; naive_solver.
Qed.

Lemma view_insert_row (r : Row) (rows rows' : list Row) :
  insert_row r rows = Ret rows' ->
  view rows' = <[row_id r := cols r]> (view rows).
Proof.
  unfold insert_row. destruct (has_id (row_id r) rows) eqn:Hfresh; [done|].
  intros [= <-]. induction rows as [|r0 rs IH]; simpl; autorewrite with py_rw in *.
  - by rewrite insert_empty.
  - apply orb_false_iff in Hfresh as [Hne Hrs].
    apply Z.eqb_neq in Hne. rewrite IH by done. by apply insert_insert_ne.
Qed.

Lemma view_update_by_id (k : Z) (u : ColsSet) (rows : list Row) :
  view (update_by_id k u rows).2 = alter (fun c => set_cols c u) k (view rows).
Proof.
  induction rows as [|r rs IH]; simpl; autorewrite with py_rw in *; [done|].
  simpl in IH. destruct (Z.eqb_spec (row_id r) k) as [->|Hne]; simpl.
  - by rewrite IH, cols_with_cols, alter_insert_eq, insert_alter_eq.
  - by rewrite IH, alter_insert_ne.
Qed.

(** When the key is stored, the [UPDATE] replaces its entry. *)
Lemma view_update_by_id_Some (k : Z) (u : ColsSet) (rows : list Row) (r : Row) :
  select_by_id k rows = Some r ->
  view (update_by_id k u rows).2 = <[k := set_cols (cols r) u]> (view rows).
Proof.
  intros Hsel. assert (Hv : view rows !! k = Some (cols r)).
  { rewrite view_select_by_id, Hsel. done. }
  rewrite view_update_by_id. apply map_eq. intros j. destruct (decide (j = k)) as [->|Hne].
  - by rewrite lookup_alter_eq, lookup_insert_eq, Hv.
  - by rewrite lookup_alter_ne, lookup_insert_ne by congruence.
Qed.

Lemma view_delete_by_id (k : Z) (rows : list Row) :
  view (delete_by_id k rows).2 = delete k (view rows).
Proof.
  induction rows as [|r rs IH]; simpl; autorewrite with py_rw in *.
  - by rewrite delete_empty.
  - rewrite filter_cons. case_decide as Hne; autorewrite with py_rw; simpl in IH.
    + by rewrite IH, delete_insert_ne.
    + assert (row_id r = k) as -> by (destruct (decide (row_id r = k)); naive_solver).
      by rewrite IH, delete_insert_eq.
Qed.

(** ** Matched-row counts when the primary key is unique *)

Lemma count_matching_unique (k : Z) (rows : list Row) :
  NoDup (ids rows) ->
  length (filter (fun r => row_id r = k) rows) = if has_id k rows then 1%nat else 0%nat.
Proof.
  induction rows as [|r rs IH]; [done|]. unfold ids; simpl.
  intros [Hnotin Hnd]%NoDup_cons. rewrite filter_cons.
  destruct (Z.eqb_spec (row_id r) k) as [<-|Hne]; simpl.
  - rewrite decide_True by done. simpl. rewrite IH by done.
    destruct (has_id (row_id r) rs) eqn:Hin; [|done].
    exfalso. apply Hnotin. unfold has_id in Hin.
    apply existsb_exists in Hin as (r' & Hr' & Heq%Z.eqb_eq).
    apply list_elem_of_In. rewrite <- Heq. by apply in_map.
  - rewrite decide_False by done. by apply IH.
Qed.

Lemma select_by_id_app_fresh (k : Z) (c : Cols) (rows : list Row) :
  has_id k rows = false ->
  select_by_id k (rows ++ [with_cols k c]) = Some (with_cols k c).
Proof.
  unfold select_by_id. induction rows as [|r rs IH]; simpl.
  - by rewrite Z.eqb_refl.
  - intros [-> Hrs]%orb_false_iff. by apply IH.
Qed.

Lemma select_by_id_Some (k : Z) (rows : list Row) (r : Row) :
  select_by_id k rows = Some r -> row_id r = k /\ has_id k rows = true.
Proof.
  unfold select_by_id, has_id. intros Hf.
  destruct (find_some _ _ Hf) as [Hin Hk%Z.eqb_eq]. split; [done|].
  apply existsb_exists. exists r. by rewrite Hk, Z.eqb_refl.
Qed.

Lemma select_by_id_None (k : Z) (rows : list Row) :
  select_by_id k rows = None <-> has_id k rows = false.
Proof.
  induction rows as [|r rs IH]; [done|]. unfold select_by_id, has_id in *; simpl.
  destruct (Z.eqb (row_id r) k); simpl; [done|apply IH].
Qed.

(** After [UPDATE ... WHERE id = k] the first row with key [k] holds the
    columns the clause assigns and its own others. *)
Lemma select_by_id_update (k : Z) (u : ColsSet) (rows : list Row) (r : Row) :
  select_by_id k rows = Some r ->
  select_by_id k (update_by_id k u rows).2 = Some (with_cols k (set_cols (cols r) u)).
Proof.
  unfold select_by_id. induction rows as [|r' rs IH]; simpl; [done|].
  destruct (Z.eqb_spec (row_id r') k); simpl.
  - intros [= ->]. by rewrite Z.eqb_refl.
  - intros Hrs. apply Z.eqb_neq in n. rewrite n. by apply IH.
Qed.

Lemma select_by_id_delete (k : Z) (rows : list Row) :
  select_by_id k (delete_by_id k rows).2 = None.
Proof.
  apply select_by_id_None. unfold has_id. apply not_true_iff_false.
  intros (r & Hr%list_elem_of_In & Hk%Z.eqb_eq)%existsb_exists.
  apply list_elem_of_filter in Hr as [Hne _]. done.
Qed.

Lemma update_by_id_count (k : Z) (u : ColsSet) (rows : list Row) :
  NoDup (ids rows) -> has_id k rows = true ->
  update_by_id k u rows = (1%nat, (update_by_id k u rows).2).
Proof.
  intros Hnd Hk. unfold update_by_id at 1. f_equal.
  by rewrite count_matching_unique, Hk.
Qed.

Lemma with_cols_cols (r : Row) : with_cols (row_id r) (cols r) = r.
Proof. by destruct r. Qed.

Lemma set_cols_none (c : Cols) : set_cols c (None, None, None) = c.
Proof. by destruct c as [[n d] p]. Qed.

(** An empty [SET] clause changes no row. *)
Lemma update_by_id_none (k : Z) (rows : list Row) :
  (update_by_id k (None, None, None) rows).2 = rows.
Proof.
  induction rows as [|[i n d p] rs IH]; [done|]. simpl in *. rewrite IH.
  destruct (Z.eqb_spec i k); by subst.
Qed.

(** With unique keys, the view holds every row under its key. *)
Lemma view_lookup_elem (rows : list Row) (r : Row) :
  NoDup (ids rows) -> r ∈ rows -> view rows !! row_id r = Some (cols r).
Proof.
  intros Hnd Hin. unfold view. apply elem_of_list_to_map_1.
  - by rewrite <- list_fmap_compose.
  - apply list_elem_of_fmap. by exists r.
Qed.

Lemma view_lookup_all (rows : list Row) :
  NoDup (ids rows) -> Forall (fun r => view rows !! row_id r = Some (cols r)) rows.
Proof. intros Hnd. apply Forall_forall. intros r Hr. by apply view_lookup_elem. Qed.

Lemma sublist_ids (l1 l2 : list Row) : l1 `sublist_of` l2 -> ids l1 `sublist_of` ids l2.
Proof. induction 1; simpl; by constructor. Qed.

(** The rows a page selects form a sublist of the table. *)
Lemma page_sublist (skip limit : nat) (rows : list Row) :
  take limit (drop skip rows) `sublist_of` rows.
Proof. etrans; [apply sublist_take|apply sublist_drop]. Qed.

(** ** Invariant preservation *)

Lemma ids_update_by_id (k : Z) (u : ColsSet) (rows : list Row) :
  ids (update_by_id k u rows).2 = ids rows.
Proof.
  induction rows as [|r rs IH]; [done|]. simpl in *.
  f_equal; [|done]. by destruct (Z.eqb_spec (row_id r) k).
Qed.

Lemma nextval_Ret (seq k : Z) :
  nextval seq = Ret k <-> seq < INT4_MAX /\ k = seq + 1.
Proof.
  unfold nextval. destruct (Z.ltb_spec seq INT4_MAX); split.
  - intros [= <-]. lia.
  - intros [_ ->]. done.
  - done.
  - lia.
Qed.

Lemma has_id_false_above (k : Z) (rows : list Row) (bound : Z) :
  Forall (fun r => row_id r <= bound) rows -> bound < k -> has_id k rows = false.
Proof.
  intros Hall Hk. apply not_true_iff_false. unfold has_id.
  intros (r & Hr & Heq%Z.eqb_eq)%existsb_exists.
  rewrite Forall_forall in Hall. specialize (Hall r (proj2 (list_elem_of_In _ _) Hr)). lia.
Qed.


Lemma Forall_ids_le (rows : list Row) (lo hi hi' : Z) :
  hi <= hi' ->
  Forall (fun r => lo <= row_id r <= hi) rows ->
  Forall (fun r => lo <= row_id r <= hi') rows.
Proof. intros Hle Hall. eapply Forall_impl; [exact Hall|]. simpl. lia. Qed.

Lemma has_id_false_ids (k : Z) (rows : list Row) :
  has_id k rows = false -> k ∉ ids rows.
Proof.
  intros Hk Hin%list_elem_of_In. apply in_map_iff in Hin as (r & <- & Hr).
  apply not_true_iff_false in Hk. apply Hk, existsb_exists.
  exists r. split; [done|]. apply Z.eqb_refl.
Qed.

Lemma wf_fresh (db : Db) (k : Z) :
  wf db -> db_seq db < k -> has_id k (db_rows db) = false.
Proof.
  intros (_ & Hall & _) Hk. apply (has_id_false_above _ _ (db_seq db)); [|done].
  eapply Forall_impl; [exact Hall|]. simpl. lia.
Qed.

(** The key [nextval] hands out is never in use: the [INSERT] of a new
    item never fails on the primary key. *)
Lemma insert_row_fresh (db : Db) (k : Z) (c : Cols) :
  wf db -> nextval (db_seq db) = Ret k ->
  insert_row (with_cols k c) (db_rows db) = Ret (db_rows db ++ [with_cols k c]).
Proof.
  intros Hwf [_ ->]%nextval_Ret. unfold insert_row. simpl.
  by rewrite wf_fresh by (done || lia).
Qed.

Lemma wf_nextval (db : Db) (k : Z) :
  wf db -> nextval (db_seq db) = Ret k -> wf (mkDb (db_rows db) k).
Proof.
  intros (Hnd & Hall & Hseq) [Hlt ->]%nextval_Ret.
  split; [|split]; simpl; [done| |unfold INT4_MAX in *; lia].
  apply (Forall_ids_le _ _ (db_seq db)); [lia|done].
Qed.

Lemma wf_insert (db : Db) (k : Z) (c : Cols) :
  wf db -> nextval (db_seq db) = Ret k ->
  wf (mkDb (db_rows db ++ [with_cols k c]) k).
Proof.
  intros Hwf Hk. pose proof (wf_nextval _ _ Hwf Hk) as (Hnd & Hall & Hseq).
  apply nextval_Ret in Hk as [_ ->]. simpl in *.
  pose proof (has_id_false_ids _ _ (wf_fresh db (db_seq db + 1) Hwf ltac:(lia))) as Hnotin.
  split; [|split]; simpl; [| |lia].
  - unfold ids. rewrite map_app. apply NoDup_app. split_and!; [done| |].
    + by intros x Hx ->%list_elem_of_singleton.
    + apply NoDup_singleton.
  - apply Forall_app. split; [done|]. apply Forall_singleton. simpl.
    destruct Hwf as (_ & _ & ?). lia.
Qed.

Lemma wf_update (db : Db) (k : Z) (u : ColsSet) :
  wf db -> wf (mkDb (update_by_id k u (db_rows db)).2 (db_seq db)).
Proof.
  intros (Hnd & Hall & Hseq). split; [|split]; cbn [db_rows db_seq]; [|clear Hnd|done].
  - by rewrite ids_update_by_id.
  - simpl. induction Hall as [|r rs Hr Hrs IH]; simpl; constructor; [|done].
    destruct (Z.eqb_spec (row_id r) k); simpl; [lia|done].
Qed.

Lemma ids_delete_by_id (k : Z) (rows : list Row) :
  ids (delete_by_id k rows).2 = filter (fun z => z <> k) (ids rows).
Proof.
  induction rows as [|r rs IH]; [done|]. simpl in *.
  rewrite !filter_cons. case_decide; simpl; by rewrite IH.
Qed.

Lemma wf_delete (db : Db) (k : Z) :
  wf db -> wf (mkDb (delete_by_id k (db_rows db)).2 (db_seq db)).
Proof.
  intros (Hnd & Hall & Hseq). split; [|split]; cbn [db_rows db_seq]; [|clear Hnd|done].
  2:{ simpl. rewrite Forall_forall in *. intros x [_ Hx]%list_elem_of_filter. by apply Hall. }
  rewrite ids_delete_by_id. by apply NoDup_filter.
Qed.

(** ** The page query *)

Lemma select_page_Ret (skip limit : Z) (rows out : list Row) :
  select_page skip limit rows = Ret out <->
  0 <= skip <= INT8_MAX /\ 0 <= limit <= INT8_MAX /\
  out = take (Z.to_nat limit) (drop (Z.to_nat skip) rows).
Proof.
  unfold select_page, in_int8.
  destruct (Z.leb_spec (- INT8_MAX - 1) skip), (Z.leb_spec skip INT8_MAX),
    (Z.leb_spec (- INT8_MAX - 1) limit), (Z.leb_spec limit INT8_MAX),
    (Z.ltb_spec skip 0), (Z.ltb_spec limit 0); simpl;
    split; intros; destruct_and?; simplify_eq; try done; try lia.
Qed.

(** ** The table's contract *)

(** C29: on a well-formed table, the [INSERT] of the key [nextval] hands
    out never violates the primary key, adds exactly that entry to the
    view and keeps the table well formed; [UPDATE] and [DELETE] keep it
    well formed too. *)
Theorem statements_preserve_wf (db : Db) (k : Z) (c : Cols) (u : ColsSet) :
  wf db ->
  (nextval (db_seq db) = Ret k ->
     insert_row (with_cols k c) (db_rows db) = Ret (db_rows db ++ [with_cols k c]) /\
     view (db_rows db ++ [with_cols k c]) = <[k := c]> (view (db_rows db)) /\
     wf (mkDb (db_rows db ++ [with_cols k c]) k)) /\
  wf (mkDb (update_by_id k u (db_rows db)).2 (db_seq db)) /\
  wf (mkDb (delete_by_id k (db_rows db)).2 (db_seq db)).
Proof.
  intros Hwf. split_and!; [|by apply wf_update|by apply wf_delete].
  intros Hk. pose proof (insert_row_fresh db k c Hwf Hk) as Hins. split_and!.
  - done.
  - rewrite (view_insert_row _ _ _ Hins). by rewrite cols_with_cols.
  - by apply wf_insert.
Qed.

(** ** Witnesses *)

Lemma statements_preserve_wf_witness :
  (nextval (db_seq sample_db) = Ret 3 ->
     insert_row (with_cols 3 (Some "Ink", None, Some 0.5%float)) (db_rows sample_db) =
       Ret (db_rows sample_db ++ [with_cols 3 (Some "Ink", None, Some 0.5%float)]) /\
     view (db_rows sample_db ++ [with_cols 3 (Some "Ink", None, Some 0.5%float)]) =
       <[3 := (Some "Ink", None, Some 0.5%float)]> (view (db_rows sample_db)) /\
     wf (mkDb (db_rows sample_db ++ [with_cols 3 (Some "Ink", None, Some 0.5%float)]) 3)) /\
  wf (mkDb (update_by_id 3 (None, None, Some (Some 0.5%float)) (db_rows sample_db)).2
           (db_seq sample_db)) /\
  wf (mkDb (delete_by_id 3 (db_rows sample_db)).2 (db_seq sample_db)).
Proof.
  apply statements_preserve_wf. apply (bool_decide_unpack _). vm_compute. reflexivity.
Defined.

End Table.
