(* ===== verification/Session.v ===== *)
(** * Session: the SQLAlchemy ORM session each request works through

    [SessionLocal = sessionmaker(autocommit=False, autoflush=False,
    bind=engine)] (src/main.py line 14) and the dependency [get_db]
    (lines 43-48).  A session keeps the database it is bound to, the rows
    its open transaction sees, and the instances it created or loaded (the
    Python objects the handlers hold; a handle is an index into that list,
    so that [db_item] returned by a handler is the very object [commit]
    flushed and [refresh] reloaded).  The operations are the ones the
    handlers call: [Query.first], [Query.offset().limit().all()],
    [Session.add], attribute assignment, [Session.delete],
    [Session.commit] (flush, then commit, then expire every instance),
    [Session.refresh] and [Session.close].  Each instance keeps its
    attribute history (the value a column had before its first
    assignment), from which the flush builds an [UPDATE] of only the
    columns whose new value is not [==] to the old one, and none when no
    column changed; a loaded row goes through the identity map, so a row
    the session already holds answers the same instance. *)

From stdpp Require Import base list gmap strings.
From Corelib Require Import PrimFloat.
From S2P Require Import Prelude Schema Table.

Module Session.
Import Table Orm.
Local Open Scope py_scope.

(** SQLAlchemy's instance states. *)
Inductive ObjState : Type := Transient | Pending | Persistent | Deleted | Detached.

#[export] Instance ObjState_eq_dec : EqDecision ObjState.
Proof. solve_decision. Defined.

(** An instance.  [o_committed] is SQLAlchemy's [committed_state]: for
    each column assigned since the last load or flush, the value it had
    before its first assignment. *)
Record Obj : Type := mkObj {
  o_attrs : ItemDB;
  o_state : ObjState;
  o_committed : list (string * pyval);
  o_delete : bool;        (** [Session.delete] called, not yet flushed *)
  o_expired : bool        (** expired by [commit]: the next access reloads *)
}.

Definition handle : Type := nat.

Record Session : Type := mkSession {
  s_db : Db;                    (** committed rows of [items] and [items_id_seq] *)
  s_tx : option (list Row);     (** the open transaction's rows; [None]: none open *)
  s_objs : list Obj;            (** the instances, by handle *)
  s_closed : bool
}.

(** The Python exceptions a request can raise. *)
Inductive Exc : Type :=
  | HTTPException (status : Z) (detail : string)
  | DBAPIError (e : DbError)
  | StaleDataError
  | InvalidRequestError
  | TypeError
  | ResponseValidationError.

Abbreviation SM := (st Session Exc).

(** [SessionLocal()]. *)
Definition SessionLocal (db : Db) : Session := mkSession db None [] false.

(** ** Plumbing *)

Definition set_tx (rows : list Row) : SM unit :=
  st_modify (fun s => mkSession (s_db s) (Some rows) (s_objs s) (s_closed s)).

(** The rows the transaction sees; the first statement begins it
    ([autocommit=False]: a transaction is begun on first use). *)
Definition tx_rows : SM (list Row) :=
  fun s => match s_tx s with
           | Some rows => (Ret rows, s)
           | None => (Ret (db_rows (s_db s)),
                      mkSession (s_db s) (Some (db_rows (s_db s))) (s_objs s) (s_closed s))
           end.

Definition get_obj (h : handle) : SM Obj :=
  fun s => match s_objs s !! h with
           | Some o => (Ret o, s)
           | None => (Raise InvalidRequestError, s)
           end.

Definition put_obj (h : handle) (o : Obj) : SM unit :=
  st_modify (fun s => mkSession (s_db s) (s_tx s) (<[h := o]> (s_objs s)) (s_closed s)).

Definition new_obj (o : Obj) : SM handle :=
  fun s => (Ret (length (s_objs s)),
            mkSession (s_db s) (s_tx s) (s_objs s ++ [o]) (s_closed s)).

Definition db_error {A} (o : outcome DbError A) : SM A :=
  st_lift (match o with Ret a => Ret a | Raise e => Raise (DBAPIError e) end).

(** [nextval] runs outside the transaction: its effect survives a
    rollback. *)
Definition nextval_sm : SM Z :=
  fun s => match nextval (db_seq (s_db s)) with
           | Ret k => (Ret k, mkSession (mkDb (db_rows (s_db s)) k) (s_tx s) (s_objs s) (s_closed s))
           | Raise e => (Raise (DBAPIError e), s)
           end.

(** ** Rows and instances *)

Definition float_attr (o : option float) : pyval :=
  match o with Some f => PFloat f | None => PNone end.

(** The attributes an instance loaded from a row holds. *)
Definition row_attrs (r : Row) : ItemDB :=
  mkItemDB (PInt (row_id r)) (Pyd.opt_str (row_nome r)) (Pyd.opt_str (row_descricao r))
           (float_attr (row_preco r)).

Definition loaded (r : Row) : Obj := mkObj (row_attrs r) Persistent [] false false.

(** The bound parameters of the data columns ([VARCHAR], [VARCHAR],
    [FLOAT]); an [int] goes to [FLOAT] as [float(int)]. *)
Definition bind_str (v : pyval) : outcome DbError (option string) :=
  match v with
  | PNone => Ret None
  | PStr s => Ret (Some s)
  | _ => Raise DatatypeMismatch
  end.

Definition bind_float (v : pyval) : outcome DbError (option float) :=
  match v with
  | PNone => Ret None
  | PFloat f => Ret (Some f)
  | PInt z => Ret (Some (Z2float z))
  | _ => Raise DatatypeMismatch
  end.

Definition bind_cols (a : ItemDB) : outcome DbError Cols :=
  match bind_str (attr_nome a), bind_str (attr_descricao a), bind_float (attr_preco a) with
  | Ret n, Ret d, Ret p => Ret (n, d, p)
  | Raise e, _, _ | _, Raise e, _ | _, _, Raise e => Raise e
  end.

(** The primary key of a persistent instance. *)
Definition pk (o : Obj) : SM Z :=
  match attr_id (o_attrs o) with PInt k => st_ret k | _ => st_raise InvalidRequestError end.

Definition set_id (a : ItemDB) (k : Z) : ItemDB :=
  mkItemDB (PInt k) (attr_nome a) (attr_descricao a) (attr_preco a).

(** The value a key is bound to in an association list (a Python dict
    whose keys are added once). *)
Fixpoint dict_get (k : string) (d : list (string * pyval)) : option pyval :=
  match d with
  | [] => None
  | (k', v) :: d' => if bool_decide (k = k') then Some v else dict_get k d'
  end.

(** ** Query API *)

(** The key under which the identity map holds an instance: the loaded
    value of its [id]. *)
Definition identity_key (o : Obj) : pyval :=
  match dict_get "id" (o_committed o) with Some v => v | None => attr_id (o_attrs o) end.

Definition has_identity (k : Z) (o : Obj) : bool :=
  bool_decide (o_state o = Persistent) &&
  match identity_key o with PInt z => Z.eqb z k | _ => false end.

(** The identity map: the handle of the persistent instance of key [k];
    [j] is the handle of the first instance of [objs]. *)
Fixpoint identity_from (j : nat) (k : Z) (objs : list Obj) : option handle :=
  match objs with
  | [] => None
  | o :: objs' => if has_identity k o then Some j else identity_from (S j) k objs'
  end.

(** Loading a row: the instance the identity map holds for its key, its
    attributes populated from the row only if they were expired;
    otherwise a new persistent instance. *)
Definition load_row (r : Row) : SM handle :=
  s <- st_get ;;
  match identity_from 0 (row_id r) (s_objs s) with
  | Some h =>
      o <- get_obj h ;;
      (if o_expired o then put_obj h (loaded r) else st_ret tt) ;;;
      st_ret h
  | None => new_obj (loaded r)
  end.

(** [db.query(ItemDB).filter(ItemDB.id == k).first()]. *)
Definition query_first_by_id (k : Z) : SM (option handle) :=
  rows <- tx_rows ;;
  match select_by_id k rows with
  | Some r => h <- load_row r ;; st_ret (Some h)
  | None => st_ret None
  end.

(** [db.query(ItemDB).offset(skip).limit(limit).all()]. *)
Definition query_page (skip limit : Z) : SM (list handle) :=
  rows <- tx_rows ;;
  page <- db_error (select_page skip limit rows) ;;
  st_mapM load_row page.

(** ** Unit of work *)

(** [ItemDB( **kw)]: a transient instance. *)
Definition new_transient (a : ItemDB) : SM handle :=
  new_obj (mkObj a Transient [] false false).

(** [db.add(obj)]. *)
Definition add (h : handle) : SM unit :=
  o <- get_obj h ;;
  match o_state o with
  | Transient => put_obj h (mkObj (o_attrs o) Pending [] false false)
  | _ => st_ret tt
  end.

(** The attribute history of an assignment to [k]: the first
    assignment of a column since the last load or flush records the value
    it replaces. *)
Definition record_history (o : Obj) (k : string) : list (string * pyval) :=
  if is_column k && negb (bool_decide (is_Some (dict_get k (o_committed o)))) then
    o_committed o ++ [(k, getattr (o_attrs o) k)]
  else o_committed o.

(** [setattr(obj, k, v)] on an instance. *)
Definition setattr_obj (h : handle) (k : string) (v : pyval) : SM unit :=
  o <- get_obj h ;;
  put_obj h (mkObj (setattr (o_attrs o) k v) (o_state o) (record_history o k)
                   (o_delete o) (o_expired o)).

(** [db.delete(obj)]: only a persistent instance can be deleted. *)
Definition delete (h : handle) : SM unit :=
  o <- get_obj h ;;
  match o_state o with
  | Persistent => put_obj h (mkObj (o_attrs o) Persistent (o_committed o) true (o_expired o))
  | _ => st_raise InvalidRequestError
  end.

(** The value of column [k] if it differs, by Python's [==], from the one
    its history recorded: a column of the [SET] clause. *)
Definition changed (o : Obj) (k : string) : option pyval :=
  match dict_get k (o_committed o) with
  | Some old => let v := getattr (o_attrs o) k in if py_eqb v old then None else Some v
  | None => None
  end.

Definition bind_set {A} (bind : pyval -> outcome DbError A) (v : option pyval) :
    outcome DbError (option A) :=
  match v with
  | None => Ret None
  | Some x => match bind x with Ret a => Ret (Some a) | Raise e => Raise e end
  end.

(** The [SET] clause of the [UPDATE] a flush emits for an instance: its
    changed data columns, bound.  (The handlers never assign [id].) *)
Definition set_clause (o : Obj) : outcome DbError ColsSet :=
  match bind_set bind_str (changed o "nome"), bind_set bind_str (changed o "descricao"),
        bind_set bind_float (changed o "preco") with
  | Ret n, Ret d, Ret p => Ret (n, d, p)
  | Raise e, _, _ | _, Raise e, _ | _, _, Raise e => Raise e
  end.

Definition empty_set (u : ColsSet) : bool :=
  match u with (None, None, None) => true | _ => false end.

Lemma empty_set_true (u : ColsSet) : empty_set u = true -> u = (None, None, None).
Proof. by destruct u as [[[?|] [?|]] [?|]]. Qed.

(** Flushing the save of one instance: [INSERT] of a pending one (its key
    from [nextval] unless set); for a persistent one, the [UPDATE] of its
    changed columns, which must match exactly one row, or no statement
    when nothing changed.  Either way its history is reset. *)
Definition flush_save (h : handle) : SM unit :=
  o <- get_obj h ;;
  match o_state o with
  | Pending =>
      c <- db_error (bind_cols (o_attrs o)) ;;
      k <- match attr_id (o_attrs o) with
           | PNone => nextval_sm
           | PInt k => st_ret k
           | _ => st_raise (DBAPIError DatatypeMismatch)
           end ;;
      rows <- tx_rows ;;
      rows' <- db_error (insert_row (with_cols k c) rows) ;;
      set_tx rows' ;;;
      put_obj h (mkObj (set_id (o_attrs o) k) Persistent [] false false)
  | Persistent =>
      if o_delete o then st_ret tt
      else
        u <- db_error (set_clause o) ;;
        if empty_set u then put_obj h (mkObj (o_attrs o) Persistent [] false (o_expired o))
        else
          k <- pk o ;;
          rows <- tx_rows ;;
          let '(n, rows') := update_by_id k u rows in
          if Nat.eqb n 1 then
            set_tx rows' ;;;
            put_obj h (mkObj (o_attrs o) Persistent [] false (o_expired o))
          else st_raise StaleDataError
  | _ => st_ret tt
  end.

(** Flushing the delete of one instance: [DELETE ... WHERE id]; a
    row-count mismatch is only a warning for a mapper without a version
    column. *)
Definition flush_delete (h : handle) : SM unit :=
  o <- get_obj h ;;
  if bool_decide (o_state o = Persistent) && o_delete o then
    k <- pk o ;;
    rows <- tx_rows ;;
    set_tx (delete_by_id k rows).2 ;;;
    put_obj h (mkObj (o_attrs o) Deleted [] false (o_expired o))
  else st_ret tt.

Definition handles (s : Session) : list handle := seq 0 (length (s_objs s)).

(** [Session.flush()]: saves, then deletes, over the instances. *)
Definition flush : SM unit :=
  s <- st_get ;;
  st_iter flush_save (handles s) ;;;
  st_iter flush_delete (handles s).

Definition expire (o : Obj) : Obj :=
  match o_state o with
  | Persistent => mkObj (o_attrs o) Persistent [] false true
  | Deleted => mkObj (o_attrs o) Detached [] false (o_expired o)
  | _ => o
  end.

(** The transaction's rows become the committed rows. *)
Definition commit_tx : SM unit :=
  st_modify (fun s =>
    mkSession (match s_tx s with
               | Some rows => mkDb rows (db_seq (s_db s))
               | None => s_db s
               end) None (map expire (s_objs s)) (s_closed s)).

(** [db.commit()] ([expire_on_commit=True]). *)
Definition commit : SM unit := flush ;;; commit_tx.

(** [db.refresh(obj)]: reload the attributes from the row with its key. *)
Definition refresh (h : handle) : SM unit :=
  o <- get_obj h ;;
  k <- pk o ;;
  rows <- tx_rows ;;
  match select_by_id k rows with
  | Some r => put_obj h (loaded r)
  | None => st_raise InvalidRequestError
  end.

(** Reading the attributes of an instance: an expired one is reloaded. *)
Definition getattrs (h : handle) : SM ItemDB :=
  o <- get_obj h ;;
  if o_expired o then refresh h ;;; o' <- get_obj h ;; st_ret (o_attrs o')
  else st_ret (o_attrs o).

(** [db.close()]: roll back what is not committed and release the
    instances. *)
Definition close (s : Session) : Session :=
  mkSession (s_db s) None
    (map (fun o => mkObj (o_attrs o) Detached [] false (o_expired o)) (s_objs s)) true.

(** [get_db]: [db = SessionLocal(); try: yield db; finally: db.close()].
    The request body runs on the session; whatever it returns or raises,
    the session is closed and the database it leaves is the result. *)
Definition get_db {A} (body : SM A) (db : Db) : outcome Exc A * Db :=
  let '(r, s) := body (SessionLocal db) in (r, s_db (close s)).

(** ** Loading a page of rows *)

Lemma identity_from_snoc (j : nat) (k : Z) (objs : list Obj) (o : Obj) :
  identity_from j k objs = None -> has_identity k o = false ->
  identity_from j k (objs ++ [o]) = None.
Proof.
  revert j. induction objs as [|o' objs IH]; intros j; simpl; [by intros _ ->|].
  destruct (has_identity k o'); [done|]. apply IH.
Qed.

Lemma has_identity_loaded (k : Z) (r : Row) : has_identity k (loaded r) = Z.eqb (row_id r) k.
Proof. done. Qed.

(** Loading rows of distinct keys the identity map does not hold yet
    creates one instance per row, in order. *)
Lemma mapM_load_row (rows : list Row) (db : Db) (tx : option (list Row))
      (objs : list Obj) (c : bool) :
  NoDup (ids rows) -> Forall (fun r => identity_from 0 (row_id r) objs = None) rows ->
  st_mapM load_row rows (mkSession db tx objs c) =
  (Ret (seq (length objs) (length rows)), mkSession db tx (objs ++ map loaded rows) c).
Proof.
  revert objs. induction rows as [|r rs IH]; intros objs Hnd Hfree; simpl.
  - by rewrite app_nil_r.
  - apply NoDup_cons in Hnd as [Hnotin Hnd]. apply Forall_cons in Hfree as [Hr Hrs].
    assert (Hrs' : Forall (fun r' => identity_from 0 (row_id r') (objs ++ [loaded r]) = None) rs).
    { apply Forall_forall. intros r' Hr'. apply identity_from_snoc.
      - by apply (proj1 (Forall_forall _ _) Hrs).
      - rewrite has_identity_loaded. apply Z.eqb_neq. intros Heq. apply Hnotin.
        rewrite Heq. by apply list_elem_of_fmap_2. }
    unfold st_bind at 1. unfold load_row at 1. unfold st_bind at 1, st_get at 1. cbn [s_objs].
    rewrite Hr. unfold new_obj at 1. cbn [s_objs s_db s_tx s_closed].
    unfold st_bind at 1. rewrite (IH _ Hnd Hrs'), length_app, <- app_assoc. simpl. by rewrite Nat.add_1_r.
Qed.

(** ** What the session operations can raise

    No session operation raises an [HTTPException]: those come only from
    the handlers' own [raise]. *)

Definition not_http (e : Exc) : Prop :=
  match e with HTTPException _ _ => False | _ => True end.

Create HintDb session_post discriminated.

(** Decompose a session computation: its binds, its case analyses, and
    the operations already shown not to raise an [HTTPException]. *)
Ltac no_http :=
  repeat match goal with
         | |- st_post _ _ (match ?x with _ => _ end) => destruct x
         | |- st_post _ _ (if ?b then _ else _) => destruct b
         | |- _ => first [solve [eauto with session_post] | st_post_step]
         end.

Lemma tx_rows_post : st_post (fun _ => True) not_http tx_rows.
Proof. intros s. unfold tx_rows. by destruct (s_tx s). Qed.

Lemma get_obj_post (h : handle) : st_post (fun _ => True) not_http (get_obj h).
Proof. intros s. unfold get_obj. by destruct (s_objs s !! h). Qed.

Lemma new_obj_post (o : Obj) : st_post (fun _ => True) not_http (new_obj o).
Proof. by intros s. Qed.

Lemma nextval_sm_post : st_post (fun _ => True) not_http nextval_sm.
Proof. intros s. unfold nextval_sm. by destruct (nextval _). Qed.

Lemma db_error_post {A} (o : outcome DbError A) : st_post (fun _ => True) not_http (db_error o).
Proof. apply st_post_lift. by destruct o. Qed.

Lemma put_obj_post (h : handle) (o : Obj) : st_post (fun _ => True) not_http (put_obj h o).
Proof. apply st_post_modify. Qed.

Lemma set_tx_post (rows : list Row) : st_post (fun _ => True) not_http (set_tx rows).
Proof. apply st_post_modify. Qed.

Lemma pk_post (o : Obj) : st_post (fun _ => True) not_http (pk o).
Proof. unfold pk. no_http. Qed.

#[export] Hint Resolve tx_rows_post get_obj_post new_obj_post nextval_sm_post db_error_post
  put_obj_post set_tx_post pk_post : session_post.

Lemma query_first_by_id_post (k : Z) :
  st_post (fun _ => True) not_http (query_first_by_id k).
Proof. unfold query_first_by_id, load_row. no_http. Qed.

Lemma query_page_post (skip limit : Z) :
  st_post (fun _ => True) not_http (query_page skip limit).
Proof. unfold query_page, load_row. no_http. Qed.

Lemma add_post (h : handle) : st_post (fun _ => True) not_http (add h).
Proof. unfold add. no_http. Qed.

Lemma setattr_obj_post (h : handle) (k : string) (v : pyval) :
  st_post (fun _ => True) not_http (setattr_obj h k v).
Proof. unfold setattr_obj. no_http. Qed.

Lemma delete_post (h : handle) : st_post (fun _ => True) not_http (delete h).
Proof. unfold delete. no_http. Qed.

Lemma refresh_post (h : handle) : st_post (fun _ => True) not_http (refresh h).
Proof. unfold refresh. no_http. Qed.

#[export] Hint Resolve query_first_by_id_post query_page_post add_post setattr_obj_post
  delete_post refresh_post : session_post.

Lemma commit_post : st_post (fun _ => True) not_http commit.
Proof. unfold commit, flush, flush_save, flush_delete, commit_tx. no_http. Qed.

Lemma getattrs_post (h : handle) : st_post (fun _ => True) not_http (getattrs h).
Proof. unfold getattrs. no_http. Qed.

#[export] Hint Resolve commit_post getattrs_post : session_post.

End Session.
