(* ===== verification/Handlers.v ===== *)
(** * Handlers: the five endpoints of src/main.py and their routes

    [create_item] (lines 67-73), [read_items] (75-78), [read_item] (80-85),
    [update_item] (87-98) and [delete_item] (100-108), each written as the
    sequence of session calls its body makes, then FastAPI's serialization
    of the returned value ([response_model=Item] or [list[Item]], through
    [from_attributes]), all inside the session [get_db] provides.  The
    routes are one request type, with [read_items]'s query defaults
    ([skip: int = 0, limit: int = 100]).  The [*_run] lemmas give each
    handler's answer and database on every branch; the route theorems
    state the same against the abstract view of the table. *)

From stdpp Require Import base list gmap strings.
From Corelib Require Import PrimFloat.
From S2P Require Import Prelude Schema Table Session.

Module Handlers.
Import Table Orm Session.
Local Open Scope py_scope.
Local Open Scope Z_scope.

(** What a handler returns: an instance, a list of instances, or the
    [{"message": ...}] dictionary of [delete_item]. *)
Inductive PyRet : Type :=
  | RObj (h : handle)
  | RObjs (hs : list handle)
  | RMsg (m : string).

(** The JSON body FastAPI sends back with status 200. *)
Inductive Body : Type :=
  | BItem (i : Pyd.Item)
  | BItems (items : list Pyd.Item)
  | BMessage (m : string).

Definition not_found_detail : string := "Item não encontrado".
Definition deleted_message : string := "Item excluído com sucesso!".

Definition not_found {A} : SM A := st_raise (HTTPException 404 not_found_detail).

(** [for key, value in item.dict().items(): setattr(db_item, key, value)]. *)
Definition setattr_loop (h : handle) (d : list (string * pyval)) : SM unit :=
  st_iter (fun kv => setattr_obj h kv.1 kv.2) d.

Definition create_item (item : Pyd.ItemCreate) : SM PyRet :=
  a <- st_of_option TypeError (ItemDB_new (Pyd.dict item)) ;;
  db_item <- new_transient a ;;
  add db_item ;;;
  commit ;;;
  refresh db_item ;;;
  st_ret (RObj db_item).

Definition read_items (skip limit : Z) : SM PyRet :=
  items <- query_page skip limit ;;
  st_ret (RObjs items).

Definition read_item (item_id : Z) : SM PyRet :=
  item <- query_first_by_id item_id ;;
  match item with
  | None => not_found
  | Some h => st_ret (RObj h)
  end.

Definition update_item (item_id : Z) (item : Pyd.ItemCreate) : SM PyRet :=
  db_item <- query_first_by_id item_id ;;
  match db_item with
  | None => not_found
  | Some h =>
      setattr_loop h (Pyd.dict item) ;;;
      commit ;;;
      refresh h ;;;
      st_ret (RObj h)
  end.

Definition delete_item (item_id : Z) : SM PyRet :=
  db_item <- query_first_by_id item_id ;;
  match db_item with
  | None => not_found
  | Some h =>
      delete h ;;;
      commit ;;;
      st_ret (RMsg deleted_message)
  end.

(** [response_model=Item]: validate one instance. *)
Definition serialize_obj (h : handle) : SM Pyd.Item :=
  a <- getattrs h ;;
  st_of_option ResponseValidationError (to_item a).

Definition serialize (r : PyRet) : SM Body :=
  match r with
  | RObj h => i <- serialize_obj h ;; st_ret (BItem i)
  | RObjs hs => items <- st_mapM serialize_obj hs ;; st_ret (BItems items)
  | RMsg m => st_ret (BMessage m)
  end.

(** One request: the handler and the serialization of its result run on
    the session [get_db] opens, and the session is closed afterwards. *)
Definition request (handler : SM PyRet) (db : Db) : outcome Exc Body * Db :=
  get_db (r <- handler ;; serialize r) db.

(** The HTTP status of the response: an [HTTPException] carries its own,
    any other exception is a server error. *)
Definition status (o : outcome Exc Body) : Z :=
  match o with
  | Ret _ => 200
  | Raise (HTTPException code _) => code
  | Raise _ => 500
  end.

(** The five routes; [None] for a query parameter that was not given. *)
Inductive Req : Type :=
  | PostItems (item : Pyd.ItemCreate)                    (** POST /items/ *)
  | GetItems (skip limit : option Z)                     (** GET /items/ *)
  | GetItem (item_id : Z)                                (** GET /items/{item_id} *)
  | PutItem (item_id : Z) (item : Pyd.ItemCreate)        (** PUT /items/{item_id} *)
  | DeleteItem (item_id : Z).                            (** DELETE /items/{item_id} *)

Definition handler_of (r : Req) : SM PyRet :=
  match r with
  | PostItems b => create_item b
  | GetItems skip limit => read_items (default 0 skip) (default 100 limit)
  | GetItem k => read_item k
  | PutItem k b => update_item k b
  | DeleteItem k => delete_item k
  end.

Definition serve (r : Req) (db : Db) : outcome Exc Body * Db :=
  request (handler_of r) db.


(** ** What a stored row serialises to *)

(** [Item.model_validate] of an instance loaded from a row: [nome] and
    [preco] are required, so a row with a [NULL] in one of them fails. *)
Definition item_of_row (r : Row) : option Pyd.Item :=
  match row_nome r, row_preco r with
  | Some n, Some p => Some (Pyd.mkItem (Pyd.mkItemBase n (row_descricao r) p) (row_id r))
  | _, _ => None
  end.

Definition serialized (r : Row) : outcome Exc Body :=
  match item_of_row r with Some i => Ret (BItem i) | None => Raise ResponseValidationError end.

(** A row as the API writes it: [nome] and [preco] are not [NULL]. *)
Definition api_row (r : Row) : Prop := is_Some (row_nome r) /\ is_Some (row_preco r).

#[export] Instance api_row_dec (r : Row) : Decision (api_row r).
Proof. unfold api_row. apply _. Defined.

(** The data columns of [item.dict()]. *)
Definition body_cols (b : Pyd.ItemBase) : Cols :=
  (Some (Pyd.nome b), Pyd.descricao b, Some (Pyd.preco b)).

(** The row [create_item] writes for key [k]. *)
Definition row_of (k : Z) (b : Pyd.ItemBase) : Row := with_cols k (body_cols b).

(** The [SET] clause the flush of [update_item] emits after its
    [setattr] loop over the instance loaded from [r]: the columns whose
    new value is not [==] to the loaded one. *)
Definition put_set (r : Row) (b : Pyd.ItemBase) : ColsSet :=
  (if py_eqb (PStr (Pyd.nome b)) (Pyd.opt_str (row_nome r)) then None
   else Some (Some (Pyd.nome b)),
   if py_eqb (Pyd.opt_str (Pyd.descricao b)) (Pyd.opt_str (row_descricao r)) then None
   else Some (Pyd.descricao b),
   if py_eqb (PFloat (Pyd.preco b)) (float_attr (row_preco r)) then None
   else Some (Some (Pyd.preco b))).

(** The price a [PUT] of [p] leaves in a row whose price was [old]: the
    stored one when [p == old] (an equal string is the same string, so
    only a price can differ: [-0.0] sent over a stored [0.0]). *)
Definition kept_price (old : option float) (p : float) : float :=
  match old with Some q => if PrimFloat.eqb p q then q else p | None => p end.

(** The fields a row with columns [c] holds after a [PUT] of [b]. *)
Definition stored_base (c : Cols) (b : Pyd.ItemBase) : Pyd.ItemBase :=
  Pyd.mkItemBase (Pyd.nome b) (Pyd.descricao b) (kept_price c.2 (Pyd.preco b)).

(** Keys unique and issued by the sequence, and every row as the API
    writes it. *)
Definition good (db : Db) : Prop := wf db /\ Forall api_row (db_rows db).

#[export] Instance good_dec (db : Db) : Decision (good db).
Proof. unfold good. apply _. Defined.

(** The data columns the API stores for an item. *)
Definition item_cols (i : Pyd.Item) : Cols := cols (row_of (Pyd.id i) (Pyd.item_base i)).

(** The item of the specification's examples, and the table holding it
    under key 1. *)
Definition pen : Pyd.ItemBase := Pyd.mkItemBase "Pen" None 1.5%float.
Definition pen_db : Db := mkDb [row_of 1 pen] 1.

(** A second version of the item of the examples. *)
Definition pen2 : Pyd.ItemBase := Pyd.mkItemBase "Pen" None 2.5%float.

(** What a route's handler can return: an instance for the routes with
    [response_model=Item], a list for [list[Item]], the message for
    [DELETE]; and what it can raise of its own: the 404. *)
Definition handler_result (r : Req) (x : PyRet) : Prop :=
  match r, x with
  | GetItems _ _, RObjs _ => True
  | DeleteItem _, RMsg m => m = deleted_message
  | (PostItems _ | GetItem _ | PutItem _ _), RObj _ => True
  | _, _ => False
  end.

Definition body_fits (r : Req) (b : Body) : Prop :=
  match r with
  | GetItems _ _ => exists items, b = BItems items
  | DeleteItem _ => b = BMessage deleted_message
  | _ => exists i, b = BItem i
  end.

Definition handler_exc (e : Exc) : Prop :=
  not_http e \/ e = HTTPException 404 not_found_detail.

Lemma good_empty : good empty_db.
Proof. split; [split_and!; simpl; try constructor; unfold INT4_MAX; lia|constructor]. Qed.

Lemma to_item_row_attrs (r : Row) : to_item (row_attrs r) = item_of_row r.
Proof. by destruct r as [i [n|] [d|] [p|]]. Qed.

Lemma item_of_row_of (k : Z) (b : Pyd.ItemBase) :
  item_of_row (row_of k b) = Some (Pyd.mkItem b k).
Proof. by destruct b. Qed.

Lemma serialize_obj_loaded (h : handle) (s : Session) (r : Row) :
  s_objs s !! h = Some (loaded r) ->
  serialize_obj h s =
  (match item_of_row r with Some i => Ret i | None => Raise ResponseValidationError end, s).
Proof.
  intros Hh. unfold serialize_obj, getattrs, get_obj, st_bind. rewrite Hh. simpl.
  rewrite to_item_row_attrs. by destruct (item_of_row r).
Qed.

Lemma item_of_row_Some (r : Row) (i : Pyd.Item) :
  item_of_row r = Some i -> r = row_of (Pyd.id i) (Pyd.item_base i).
Proof. destruct r as [k [n|] d [p|]]; simpl; by intros [= <-]. Qed.

Lemma mapM_item_of_row_api (rows : list Row) :
  Forall api_row rows -> exists items, mapM item_of_row rows = Some items.
Proof.
  induction 1 as [|r rs [[n Hn] [p Hp]] _ [items IH]]; [by exists []|].
  exists (Pyd.mkItem (Pyd.mkItemBase n (row_descricao r) p) (row_id r) :: items).
  apply mapM_Some in IH. apply mapM_Some. constructor; [|done].
  unfold item_of_row. by rewrite Hn, Hp.
Qed.

(** The items a page serialises to carry the keys of its rows. *)
Lemma mapM_item_of_row_ids (rows : list Row) (items : list Pyd.Item) :
  mapM item_of_row rows = Some items -> map Pyd.id items = ids rows.
Proof.
  intros Hm%mapM_Some. induction Hm as [|r i rs items Hr _ IH]; [done|]. simpl.
  by rewrite IH, (item_of_row_Some r i Hr).
Qed.

Lemma mapM_serialize (rows : list Row) (db : Db) (tx : option (list Row))
      (pre : list Obj) (c : bool) :
  st_mapM serialize_obj (seq (length pre) (length rows))
          (mkSession db tx (pre ++ map loaded rows) c) =
  (match mapM item_of_row rows with
   | Some items => Ret items | None => Raise ResponseValidationError end,
   mkSession db tx (pre ++ map loaded rows) c).
Proof.
  revert pre. induction rows as [|r rs IH]; intros pre; [done|]. simpl.
  unfold st_bind at 1. rewrite (serialize_obj_loaded _ _ r) by (simpl; by apply list_lookup_middle).
  destruct (item_of_row r) as [i|]; simpl; [|done].
  unfold st_bind. specialize (IH (pre ++ [loaded r])).
  rewrite length_app, <- app_assoc, Nat.add_1_r in IH. simpl in IH.
  rewrite IH. by destruct (mapM item_of_row rs).
Qed.

(** ** What each route answers, whatever the table holds *)

Lemma not_http_handler_exc {A} (P : A -> Prop) (m : SM A) :
  st_post P not_http m -> st_post P handler_exc m.
Proof. intros Hm. apply (st_post_weaken _ _ _ _ _ Hm); [done|by left]. Qed.

Lemma not_found_post {A} (P : A -> Prop) : st_post P handler_exc not_found.
Proof. apply st_post_raise. by right. Qed.

#[export] Hint Resolve not_http_handler_exc not_found_post : session_post.

Lemma handler_of_post (r : Req) : st_post (handler_result r) handler_exc (handler_of r).
Proof.
  destruct r; simpl;
    unfold create_item, read_items, read_item, update_item, delete_item, setattr_loop;
    no_http.
Qed.

Lemma serialize_post (r : Req) (x : PyRet) :
  handler_result r x -> st_post (body_fits r) handler_exc (serialize x).
Proof.
  unfold serialize, serialize_obj.
  destruct r, x; simpl; intros Hx; try done; no_http; subst.
  all: unfold handler_exc, body_fits; simpl; eauto.
Qed.

(** Every route answers the body its response model describes, or raises
    a non-HTTP exception, or its own 404. *)
Lemma serve_outcome (r : Req) (db : Db) :
  match (serve r db).1 with Ret b => body_fits r b | Raise e => handler_exc e end.
Proof.
  unfold serve, request, get_db.
  pose proof (st_post_bind _ _ _ _ _ (handler_of_post r) (serialize_post r)
                (SessionLocal db)) as H.
  destruct ((x <- handler_of r ;; serialize x) (SessionLocal db)) as [o s]. exact H.
Qed.

(** ** Running the handlers *)

(** Evaluate a request as far as the statements whose results depend on
    the table's contents; the proofs rewrite those with the lemmas of
    [Table] and go on. *)
Ltac req_step :=
  cbv -[nextval insert_row select_by_id select_page update_by_id delete_by_id
        Z.add with_cols db_rows db_seq app];
  cbn [db_rows db_seq app].

(** The same, keeping the comparisons of the flush and the
    serialisation folded. *)
Ltac req_step_put :=
  cbv -[nextval insert_row select_by_id select_page update_by_id delete_by_id
        Z.add with_cols db_rows db_seq app serialize_obj py_eqb Pyd.opt_str float_attr bind_str];
  cbn [db_rows db_seq app].

Lemma bind_str_opt_str (o : option string) : bind_str (Pyd.opt_str o) = Ret o.
Proof. by destruct o. Qed.

(** The same, keeping the page loops for [mapM_load_row] and
    [mapM_serialize]. *)
Ltac req_step_page :=
  cbv -[nextval insert_row select_by_id select_page update_by_id delete_by_id
        Z.add with_cols db_rows db_seq app st_mapM load_row serialize_obj];
  cbn [db_rows db_seq app].

(** [POST /items/] on a well-formed database whose sequence is not
    exhausted answers the item it was given with the id [nextval] hands
    out, appends the row with exactly the given fields, and advances the
    sequence by one. *)
Lemma create_item_run (db : Db) (b : Pyd.ItemBase) :
  wf db -> db_seq db < INT4_MAX ->
  request (create_item b) db =
    (Ret (BItem (Pyd.mkItem b (db_seq db + 1))),
     mkDb (db_rows db ++ [row_of (db_seq db + 1) b]) (db_seq db + 1)).
Proof.
  intros Hwf Hlt. destruct b as [n d p]. unfold row_of; simpl.
  assert (Hk : nextval (db_seq db) = Ret (db_seq db + 1)) by (apply nextval_Ret; lia).
  pose proof (insert_row_fresh db (db_seq db + 1) (Some n, d, Some p) Hwf Hk) as Hins.
  pose proof (select_by_id_app_fresh (db_seq db + 1) (Some n, d, Some p) (db_rows db)
    (wf_fresh db (db_seq db + 1) Hwf ltac:(lia))) as Hsel.
  destruct d as [d|]; unfold request;
    do 6 (req_step; rewrite ?Hk, ?Hins, ?Hsel); reflexivity.
Qed.

(** once [items_id_seq] has reached the [integer] maximum, [POST
    /items/] fails with a database error and changes nothing. *)
Lemma create_item_run_exhausted (db : Db) (b : Pyd.ItemBase) :
  INT4_MAX <= db_seq db ->
  request (create_item b) db = (Raise (DBAPIError SequenceExhausted), db).
Proof.
  intros Hge. assert (Hk : nextval (db_seq db) = Raise SequenceExhausted).
  { unfold nextval. destruct (Z.ltb_spec (db_seq db) INT4_MAX); [lia|done]. }
  destruct b as [n [d|] p]; unfold request; req_step; rewrite Hk; req_step; by destruct db.
Qed.

(** [GET /items/{k}] for a stored key answers the serialisation of the
    first row with that key and leaves the database as it was. *)
Lemma read_item_run_found (db : Db) (k : Z) (r : Row) :
  select_by_id k (db_rows db) = Some r ->
  request (read_item k) db = (serialized r, db).
Proof.
  intros Hsel. unfold request. req_step. rewrite Hsel. req_step.
  destruct r as [i [n|] [d|] [p|]]; reflexivity.
Qed.

(** [GET /items/{k}] for a key with no row raises [HTTPException(404,
    "Item não encontrado")] and leaves the database as it was. *)
Lemma read_item_run_missing (db : Db) (k : Z) :
  select_by_id k (db_rows db) = None ->
  request (read_item k) db = (Raise (HTTPException 404 not_found_detail), db).
Proof. intros Hsel. unfold request. req_step. rewrite Hsel. req_step. by destruct db. Qed.

(** [PUT /items/{k}] for a stored key on a well-formed database issues
    the [UPDATE] of the columns whose value changes ([put_set]; none when
    nothing changes), keeps the key and the sequence, and answers the row
    [refresh] reads back. *)
Lemma update_item_run_found (db : Db) (k : Z) (r : Row) (b : Pyd.ItemBase) :
  wf db -> select_by_id k (db_rows db) = Some r ->
  request (update_item k b) db =
    (serialized (with_cols k (set_cols (cols r) (put_set r b))),
     mkDb (update_by_id k (put_set r b) (db_rows db)).2 (db_seq db)).
Proof.
  intros (Hnd & _ & _) Hsel. pose proof (select_by_id_Some _ _ _ Hsel) as [Hk Hhas].
  destruct b as [n d p], r as [i nr dr pr]; simpl in Hk; subst k.
  match goal with |- _ = ?R => remember R as RHS eqn:HR end.
  unfold put_set in HR; cbn [Pyd.nome Pyd.descricao Pyd.preco row_nome row_descricao row_preco] in HR.
  unfold request. req_step_put. rewrite Hsel. req_step_put.
  destruct (py_eqb (PStr n) (Pyd.opt_str nr)) eqn:E1,
    (py_eqb (Pyd.opt_str d) (Pyd.opt_str dr)) eqn:E2,
    (py_eqb (PFloat p) (float_attr pr)) eqn:E3;
    rewrite ?E1, ?E2, ?E3 in HR; cbv iota beta in HR; rewrite ?bind_str_opt_str; req_step.
  all: first
    [ match goal with
      | |- context [update_by_id ?k ?u ?rows] =>
          pose proof (update_by_id_count k u _ Hnd Hhas) as Hc;
          pose proof (select_by_id_update k u _ _ Hsel) as Hs;
          destruct (update_by_id k u rows) as [cnt rows'] eqn:Hu;
          try rewrite Hu in HR; cbn [snd] in Hs, HR, Hc; injection Hc as ->;
          req_step; rewrite Hs; req_step
      end
    | rewrite update_by_id_none in HR; rewrite ?Hsel; req_step ].
  all: subst RHS; destruct d, nr, dr, pr; reflexivity.
Qed.

(** [PUT /items/{k}] for a key with no row raises the 404 exception
    and inserts nothing. *)
Lemma update_item_run_missing (db : Db) (k : Z) (b : Pyd.ItemBase) :
  select_by_id k (db_rows db) = None ->
  request (update_item k b) db = (Raise (HTTPException 404 not_found_detail), db).
Proof. intros Hsel. unfold request. req_step. rewrite Hsel. req_step. by destruct db. Qed.

(** [DELETE /items/{k}] for a stored key removes the rows with that
    key and answers the confirmation message. *)
Lemma delete_item_run_found (db : Db) (k : Z) (r : Row) :
  select_by_id k (db_rows db) = Some r ->
  request (delete_item k) db =
    (Ret (BMessage deleted_message), mkDb (delete_by_id k (db_rows db)).2 (db_seq db)).
Proof.
  intros Hsel. pose proof (select_by_id_Some _ _ _ Hsel) as [Hk _].
  destruct r as [i nr dr pr]; simpl in Hk; subst i.
  unfold request. req_step. rewrite Hsel. req_step. reflexivity.
Qed.

(** [DELETE /items/{k}] for a key with no row raises the 404
    exception and changes nothing. *)
Lemma delete_item_run_missing (db : Db) (k : Z) :
  select_by_id k (db_rows db) = None ->
  request (delete_item k) db = (Raise (HTTPException 404 not_found_detail), db).
Proof. intros Hsel. unfold request. req_step. rewrite Hsel. req_step. by destruct db. Qed.

(** [GET /items/] with an offset or limit the database refuses fails
    with its error and changes nothing. *)
Lemma read_items_run_error (db : Db) (skip limit : Z) (e : DbError) :
  select_page skip limit (db_rows db) = Raise e ->
  request (read_items skip limit) db = (Raise (DBAPIError e), db).
Proof. intros Hp. unfold request. req_step_page. rewrite Hp. req_step_page. by destruct db. Qed.

Lemma page_ids_NoDup (skip limit : Z) (rows page : list Row) :
  NoDup (ids rows) -> select_page skip limit rows = Ret page -> NoDup (ids page).
Proof.
  intros Hnd (_ & _ & ->)%select_page_Ret. eapply sublist_NoDup; [exact Hnd|].
  apply sublist_ids, page_sublist.
Qed.

(** [GET /items/?skip=..&limit=..] on a table of unique keys answers the
    serialisation of the rows [OFFSET skip LIMIT limit] selects (one new
    instance per row: the identity map holds none of them yet), fails
    with the database error of an invalid offset or limit, and never
    changes the database. *)
Lemma read_items_run (db : Db) (skip limit : Z) :
  NoDup (ids (db_rows db)) ->
  request (read_items skip limit) db =
  (match select_page skip limit (db_rows db) with
   | Ret page =>
       match mapM item_of_row page with
       | Some items => Ret (BItems items)
       | None => Raise ResponseValidationError
       end
   | Raise e => Raise (DBAPIError e)
   end, db).
Proof.
  intros Hnd. destruct (select_page skip limit (db_rows db)) as [page|e] eqn:Hp;
    [|by apply read_items_run_error].
  pose proof (page_ids_NoDup _ _ _ _ Hnd Hp) as Hndp.
  destruct (mapM item_of_row page) as [items|] eqn:Hm;
    unfold request; req_step_page; rewrite Hp; req_step_page.
  all: rewrite (mapM_load_row page db _ [] false) by (done || by apply Forall_true).
  all: req_step_page.
  all: rewrite (mapM_serialize page db _ [] false), Hm; req_step_page; by destruct db.
Qed.

Lemma set_cols_put_set (r : Row) (b : Pyd.ItemBase) :
  set_cols (cols r) (put_set r b) = body_cols (stored_base (cols r) b).
Proof.
  destruct r as [i nr dr pr], b as [n d p].
  unfold put_set, stored_base, kept_price, body_cols, set_cols; cbn.
  destruct nr, d, dr, pr; cbn; repeat case_bool_decide; subst; try done;
    by destruct (PrimFloat.eqb _ _).
Qed.

Lemma serialized_body (k : Z) (b : Pyd.ItemBase) :
  serialized (with_cols k (body_cols b)) = Ret (BItem (Pyd.mkItem b k)).
Proof. unfold serialized. by destruct b. Qed.

Lemma kept_price_eq (c : Cols) (b : Pyd.ItemBase) :
  Pyd.preco (stored_base c b) = Pyd.preco b \/
  PrimFloat.eqb (Pyd.preco b) (Pyd.preco (stored_base c b)) = true.
Proof.
  unfold stored_base, kept_price; cbn. destruct c.2 as [q|]; [|by left].
  destruct (PrimFloat.eqb (Pyd.preco b) q) eqn:E; [right|left]; done.
Qed.

(** ** The routes against the abstract view of the table *)

(** C1: [POST /items/] on a database satisfying the invariant, with the
    sequence not exhausted, answers the given item with the key
    [db_seq + 1], a key no row holds; the stored row carries exactly the
    given fields, so the table's view gains that one entry; the
    sequence advances by one. *)
Theorem post_items_spec (db : Db) (b : Pyd.ItemBase) :
  good db -> db_seq db < INT4_MAX ->
  view (db_rows db) !! (db_seq db + 1) = None /\
  serve (PostItems b) db =
    (Ret (BItem (Pyd.mkItem b (db_seq db + 1))),
     mkDb (db_rows db ++ [row_of (db_seq db + 1) b]) (db_seq db + 1)) /\
  view (db_rows db ++ [row_of (db_seq db + 1) b]) =
    <[db_seq db + 1 := cols (row_of (db_seq db + 1) b)]> (view (db_rows db)).
Proof.
  intros [Hwf _] Hlt.
  assert (Hk : nextval (db_seq db) = Ret (db_seq db + 1)) by (apply nextval_Ret; lia).
  pose proof (wf_fresh db (db_seq db + 1) Hwf ltac:(lia)) as Hfresh.
  split_and!.
  - apply eq_None_not_Some. by rewrite <- has_id_view, Hfresh.
  - by apply create_item_run.
  - by apply view_insert_row, insert_row_fresh.
Qed.

(** C2: [GET /items/{k}] answers the entry of the table's view at [k],
    serialised as an [Item], or raises the 404 exception when the view
    has none; the database is unchanged. *)
Theorem get_item_spec (db : Db) (k : Z) :
  serve (GetItem k) db =
  (match view (db_rows db) !! k with
   | Some c => serialized (with_cols k c)
   | None => Raise (HTTPException 404 not_found_detail)
   end, db).
Proof.
  unfold serve; simpl. rewrite view_select_by_id.
  destruct (select_by_id k (db_rows db)) as [r|] eqn:Hsel; simpl.
  - rewrite (read_item_run_found _ _ r) by done.
    destruct (select_by_id_Some _ _ _ Hsel) as [<- _]. by rewrite with_cols_cols.
  - by apply read_item_run_missing.
Qed.

(** C3: [PUT /items/{k}] on a well-formed database replaces the view's
    entry at [k] by the given fields, a stored price that is [==] to the
    given one kept ([stored_base]), and answers them with key [k]; when
    the view has no entry at [k] it raises the 404 exception and changes
    nothing: nothing is inserted. *)
Theorem put_item_spec (db : Db) (k : Z) (b : Pyd.ItemBase) :
  wf db ->
  match view (db_rows db) !! k with
  | Some c =>
      exists rows',
        serve (PutItem k b) db =
          (Ret (BItem (Pyd.mkItem (stored_base c b) k)), mkDb rows' (db_seq db)) /\
        view rows' = <[k := body_cols (stored_base c b)]> (view (db_rows db)) /\
        (Pyd.preco (stored_base c b) = Pyd.preco b \/
         PrimFloat.eqb (Pyd.preco b) (Pyd.preco (stored_base c b)) = true)
  | None => serve (PutItem k b) db = (Raise (HTTPException 404 not_found_detail), db)
  end.
Proof.
  intros Hwf. unfold serve; simpl. rewrite view_select_by_id.
  destruct (select_by_id k (db_rows db)) as [r|] eqn:Hsel; simpl.
  - eexists. split_and!.
    + rewrite (update_item_run_found _ _ r) by done. by rewrite set_cols_put_set, serialized_body.
    + by rewrite (view_update_by_id_Some _ _ _ r), set_cols_put_set.
    + apply (kept_price_eq (cols r)).
  - by apply update_item_run_missing.
Qed.

(** C4: [DELETE /items/{k}] removes the view's entry at [k] and answers
    the confirmation message, or raises the 404 exception and changes
    nothing when there is none. *)
Theorem delete_item_spec (db : Db) (k : Z) :
  match view (db_rows db) !! k with
  | Some _ =>
      exists rows', serve (DeleteItem k) db = (Ret (BMessage deleted_message), mkDb rows' (db_seq db))
                    /\ view rows' = stdpp.base.delete k (view (db_rows db))
  | None => serve (DeleteItem k) db = (Raise (HTTPException 404 not_found_detail), db)
  end.
Proof.
  unfold serve; simpl. rewrite view_select_by_id.
  destruct (select_by_id k (db_rows db)) as [r|] eqn:Hsel; simpl.
  - eexists. split; [by apply (delete_item_run_found _ _ r)|]. apply view_delete_by_id.
  - by apply delete_item_run_missing.
Qed.

Lemma page_items_stored (rows page : list Row) (items : list Pyd.Item) :
  Forall (fun r => view rows !! row_id r = Some (cols r)) page ->
  mapM item_of_row page = Some items ->
  Forall (fun i => view rows !! Pyd.id i = Some (item_cols i)) items.
Proof.
  intros Hall Hm%mapM_Some. induction Hm as [|r i rs items Hr _ IH]; [done|].
  apply Forall_cons in Hall as [Hr' Hrs]. constructor; [|by apply IH].
  apply item_of_row_Some in Hr. subst r. exact Hr'.
Qed.

(** C5: [GET /items/?skip=s&limit=l] with [s] and [l] within [bigint]
    and not negative, on a database satisfying the invariant, answers
    [min l (n - s)] items for a table of [n] rows, with distinct keys,
    each of them an entry of the table's view; the database is
    unchanged. *)
Theorem get_items_spec (db : Db) (skip limit : Z) :
  good db -> 0 <= skip <= INT8_MAX -> 0 <= limit <= INT8_MAX ->
  exists items,
    serve (GetItems (Some skip) (Some limit)) db = (Ret (BItems items), db) /\
    length items = Nat.min (Z.to_nat limit) (length (db_rows db) - Z.to_nat skip) /\
    NoDup (map Pyd.id items) /\
    Forall (fun i => view (db_rows db) !! Pyd.id i = Some (item_cols i)) items.
Proof.
  intros [[Hnd _] Hapi] Hs Hl.
  set (page := take (Z.to_nat limit) (drop (Z.to_nat skip) (db_rows db))).
  assert (Hp : select_page skip limit (db_rows db) = Ret page) by (by apply select_page_Ret).
  destruct (mapM_item_of_row_api page) as [items Hm].
  { by apply Forall_take, Forall_drop. }
  exists items. split_and!.
  - unfold serve; simpl. by rewrite read_items_run, Hp, Hm by done.
  - pose proof (Forall2_length _ _ _ (proj1 (mapM_Some _ _ _) Hm)) as <-.
    apply length_take_drop.
  - rewrite (mapM_item_of_row_ids _ _ Hm). eapply sublist_NoDup; [exact Hnd|].
    apply sublist_ids, page_sublist.
  - apply (page_items_stored _ page); [|done].
    by apply Forall_take, Forall_drop, view_lookup_all.
Qed.

(** C6: [GET /items/] with a negative [skip] or [limit] fails with the
    database's error, an HTTP 500, and changes nothing. *)
Theorem get_items_negative (db : Db) (skip limit : Z) :
  (skip < 0 \/ limit < 0) ->
  status (serve (GetItems (Some skip) (Some limit)) db).1 = 500 /\
  (serve (GetItems (Some skip) (Some limit)) db).2 = db.
Proof.
  intros Hneg. unfold serve; simpl.
  destruct (select_page skip limit (db_rows db)) as [page|e] eqn:Hp.
  - apply select_page_Ret in Hp. lia.
  - by rewrite (read_items_run_error _ _ _ e Hp).
Qed.

(** C13: once [items_id_seq] is at the [integer] maximum, [POST /items/]
    fails with the database's error, an HTTP 500, and changes nothing:
    the handler does not guard against the exhausted sequence. *)
Theorem post_items_exhausted (db : Db) (b : Pyd.ItemBase) :
  INT4_MAX <= db_seq db ->
  serve (PostItems b) db = (Raise (DBAPIError SequenceExhausted), db) /\
  status (serve (PostItems b) db).1 = 500.
Proof. intros Hge. unfold serve; simpl. by rewrite create_item_run_exhausted. Qed.

(** ** Witnesses *)

Ltac decide_good := apply (bool_decide_unpack _); vm_compute; reflexivity.

Lemma post_items_spec_witness :
  view (db_rows empty_db) !! (db_seq empty_db + 1) = None /\
  serve (PostItems pen) empty_db =
    (Ret (BItem (Pyd.mkItem pen (db_seq empty_db + 1))),
     mkDb (db_rows empty_db ++ [row_of (db_seq empty_db + 1) pen]) (db_seq empty_db + 1)) /\
  view (db_rows empty_db ++ [row_of (db_seq empty_db + 1) pen]) =
    <[db_seq empty_db + 1 := cols (row_of (db_seq empty_db + 1) pen)]> (view (db_rows empty_db)).
Proof. apply post_items_spec; [decide_good|vm_compute; reflexivity]. Defined.

Lemma put_item_spec_witness :
  match view (db_rows pen_db) !! 1 with
  | Some c =>
      exists rows',
        serve (PutItem 1 pen) pen_db =
          (Ret (BItem (Pyd.mkItem (stored_base c pen) 1)), mkDb rows' (db_seq pen_db)) /\
        view rows' = <[1 := body_cols (stored_base c pen)]> (view (db_rows pen_db)) /\
        (Pyd.preco (stored_base c pen) = Pyd.preco pen \/
         PrimFloat.eqb (Pyd.preco pen) (Pyd.preco (stored_base c pen)) = true)
  | None => serve (PutItem 1 pen) pen_db = (Raise (HTTPException 404 not_found_detail), pen_db)
  end.
Proof. apply put_item_spec. decide_good. Defined.

Lemma get_items_spec_witness :
  exists items,
    serve (GetItems (Some 0) (Some 100)) pen_db = (Ret (BItems items), pen_db) /\
    length items = Nat.min (Z.to_nat 100) (length (db_rows pen_db) - Z.to_nat 0) /\
    NoDup (map Pyd.id items) /\
    Forall (fun i => view (db_rows pen_db) !! Pyd.id i = Some (item_cols i)) items.
Proof. apply get_items_spec; [decide_good|vm_compute; split; discriminate..]. Defined.

Lemma get_items_negative_witness :
  status (serve (GetItems (Some (-1)) (Some 100)) pen_db).1 = 500 /\
  (serve (GetItems (Some (-1)) (Some 100)) pen_db).2 = pen_db.
Proof. apply get_items_negative. left. reflexivity. Defined.

Lemma post_items_exhausted_witness :
  serve (PostItems pen) (mkDb [] INT4_MAX) = (Raise (DBAPIError SequenceExhausted), mkDb [] INT4_MAX) /\
  status (serve (PostItems pen) (mkDb [] INT4_MAX)).1 = 500.
Proof. apply post_items_exhausted. vm_compute. discriminate. Defined.

End Handlers.
