(* ===== verification/Startup.v ===== *)
(** * Startup: the table-creation retry loop

    [startup_event] (src/main.py lines 51-63) runs before the application
    serves requests: up to ten times it calls
    [Base.metadata.create_all(bind=engine)], which creates the [items]
    table (and its sequence) when it is absent and leaves an existing one
    untouched; on success it prints and [break]s, on an exception it prints
    and sleeps five seconds; when the [for] loop ends without [break], its
    [else] clause raises and the application does not start.

    Whether [create_all] succeeds at the [i]-th attempt is the
    environment's choice, modelled by an oracle [failure : nat -> option
    string]: [None] when the attempt reaches the database, [Some e] when
    [create_all] raises an exception whose text ([{e}] in the f-string of
    line 60) is [e].
    The loop is structural recursion on the attempts left, so it
    terminates by construction. *)

From stdpp Require Import base list strings.
From S2P Require Import Prelude Table.

Module Startup.
Import Table.

(** The database before startup: [None] when [items] does not exist. *)
Definition create_all (d : option Db) : Db :=
  match d with Some db => db | None => empty_db end.

(** The observable effects of the loop, in order. *)
Inductive Effect : Type :=
  | CreateAll                 (** a call of [create_all] *)
  | Print (msg : string)
  | Sleep (secs : Z).

#[export] Instance Effect_eq_dec : EqDecision Effect.
Proof. solve_decision. Defined.

Definition msg_ok : string := "Tabelas criadas com sucesso ou já existentes.".
(** [f"Erro ao conectar ao DB ou criar tabelas: {e}. Tentando novamente em 5 segundos..."] *)
Definition msg_retry (e : string) : string :=
  "Erro ao conectar ao DB ou criar tabelas: " +:+ e +:+ ". Tentando novamente em 5 segundos...".
Definition msg_fail : string :=
  "Não foi possível conectar ao banco de dados após várias tentativas.".

(** The effects of one failed iteration: the call raised, the handler
    printed and slept. *)
Definition failed_iteration (e : string) : list Effect := [CreateAll; Print (msg_retry e); Sleep 5].

(** The effects of the failed attempts [i .. i + n - 1]. *)
Definition failed_iterations (failure : nat -> option string) (i n : nat) : list Effect :=
  concat (map (fun j => failed_iteration (default "" (failure j))) (seq i n)).

(** [for _ in range(n)] starting at attempt [i]: whether the loop left by
    [break], the database, and the effects. *)
Fixpoint retry (n i : nat) (failure : nat -> option string) (d : option Db)
  : bool * option Db * list Effect :=
  match n with
  | O => (false, d, [])
  | S n' =>
      match failure i with
      | None => (true, Some (create_all d), [CreateAll; Print msg_ok])
      | Some e =>
          let '(ok, d', log) := retry n' (S i) failure d in
          (ok, d', failed_iteration e ++ log)
      end
  end.

Definition ATTEMPTS : nat := 10.

(** [startup_event()]: the created (or existing) table, or the exception
    of the [else] clause; and the effects. *)
Definition startup_event (failure : nat -> option string) (d : option Db)
  : outcome string Db * list Effect :=
  let '(ok, d', log) := retry ATTEMPTS 0 failure d in
  match ok, d' with
  | true, Some db => (Ret db, log)
  | _, _ => (Raise msg_fail, log)
  end.

(** Seconds slept, and calls of [create_all], in a list of effects. *)
Definition slept (log : list Effect) : Z :=
  foldr (fun e acc => match e with Sleep s => s + acc | _ => acc end)%Z 0%Z log.

Definition attempts (log : list Effect) : nat :=
  length (filter (fun e => e = CreateAll) log).

(** ** The loop, iteration by iteration *)

Lemma failed_iterations_S (failure : nat -> option string) (i n : nat) :
  failed_iterations failure i (S n) =
  failed_iteration (default "" (failure i)) ++ failed_iterations failure (S i) n.
Proof. done. Qed.

Lemma retry_all_fail (n i : nat) (failure : nat -> option string) (d : option Db) :
  (forall j, i <= j < i + n -> is_Some (failure j)) ->
  retry n i failure d = (false, d, failed_iterations failure i n).
Proof.
  revert i. induction n as [|n IH]; intros i Hfail; [done|]. simpl.
  destruct (Hfail i ltac:(lia)) as [e He]. rewrite He.
  rewrite IH; [by rewrite failed_iterations_S, He|]. intros j Hj. apply Hfail. lia.
Qed.

Lemma retry_first_ok (n i j : nat) (failure : nat -> option string) (d : option Db) :
  i <= j < i + n -> (forall m, i <= m < j -> is_Some (failure m)) -> failure j = None ->
  retry n i failure d =
    (true, Some (create_all d), failed_iterations failure i (j - i) ++ [CreateAll; Print msg_ok]).
Proof.
  revert i. induction n as [|n IH]; intros i Hj Hbefore Hok; [lia|]. simpl.
  destruct (decide (i = j)) as [->|Hne].
  - by rewrite Hok, Nat.sub_diag.
  - destruct (Hbefore i ltac:(lia)) as [e He]. rewrite He.
    rewrite (IH (S i)); [|lia|intros m Hm; apply Hbefore; lia|done].
    replace (j - i) with (S (j - S i)) by lia. rewrite failed_iterations_S, He.
    simpl. by rewrite ?app_assoc.
Qed.

Lemma retry_ok_iff (n i : nat) (failure : nat -> option string) (d : option Db) :
  (retry n i failure d).1.1 = true <-> exists j, i <= j < i + n /\ failure j = None.
Proof.
  revert i. induction n as [|n IH]; intros i; simpl.
  - split; [done|]. intros (j & ? & _). lia.
  - destruct (failure i) as [e|] eqn:Hi.
    + destruct (retry n (S i) failure d) as [[ok d'] log] eqn:Hr. simpl.
      specialize (IH (S i)). rewrite Hr in IH. simpl in IH. rewrite IH.
      split; intros (j & Hj & Hr'); exists j; split; try done; try lia.
      destruct (decide (i = j)) as [->|]; [congruence|lia].
    + split; [|done]. intros _. exists i. split; [lia|done].
Qed.

Lemma retry_result (n i : nat) (failure : nat -> option string) (d : option Db) :
  (retry n i failure d).1 =
  if (retry n i failure d).1.1 then (true, Some (create_all d)) else (false, d).
Proof.
  revert i. induction n as [|n IH]; intros i; [done|]. simpl.
  destruct (failure i); [|done].
  specialize (IH (S i)). destruct (retry n (S i) failure d) as [[ok d'] log].
  simpl in *. by destruct ok.
Qed.

Lemma slept_failed (failure : nat -> option string) (i k : nat) (tail : list Effect) :
  slept (failed_iterations failure i k ++ tail) = (5 * Z.of_nat k + slept tail)%Z.
Proof.
  revert i. induction k as [|k IH]; intros i; [done|].
  rewrite failed_iterations_S, <- app_assoc. simpl. rewrite IH. lia.
Qed.

Lemma attempts_failed (failure : nat -> option string) (i k : nat) (tail : list Effect) :
  attempts (failed_iterations failure i k ++ tail) = (k + attempts tail)%nat.
Proof.
  revert i. induction k as [|k IH]; intros i; [done|].
  rewrite failed_iterations_S, <- app_assoc. unfold attempts in *. simpl.
  rewrite !filter_cons, !decide_False by done. by rewrite IH.
Qed.

(** When the application starts, it starts on what [create_all] left. *)
Lemma startup_event_Ret (failure : nat -> option string) (d : option Db) (db : Db) :
  (startup_event failure d).1 = Ret db -> db = create_all d.
Proof.
  unfold startup_event. pose proof (retry_result ATTEMPTS 0 failure d) as Hres.
  destruct (retry ATTEMPTS 0 failure d) as [[[] [db'|]] log]; simpl in *;
    intros Hdb; try done.
  injection Hres as ->. by injection Hdb as ->.
Qed.

(** ** What [startup_event] does *)

(** C30: when the first attempt whose [create_all] succeeds is attempt
    [j] (counting from 0, [j < 10]), the application starts on the table
    [create_all] leaves (an existing table unchanged), after [j + 1]
    calls of [create_all] and [5 * j] seconds of sleep; before the
    success message it has printed, for each failed attempt in order,
    the retry message with that attempt's exception text. *)
Theorem startup_first_success (failure : nat -> option string) (d : option Db) (j : nat) :
  j < ATTEMPTS -> (forall m, m < j -> is_Some (failure m)) -> failure j = None ->
  (startup_event failure d).1 = Ret (create_all d) /\
  (startup_event failure d).2 = failed_iterations failure 0 j ++ [CreateAll; Print msg_ok] /\
  slept (startup_event failure d).2 = (5 * Z.of_nat j)%Z /\
  attempts (startup_event failure d).2 = S j.
Proof.
  intros Hj Hbefore Hok. unfold startup_event.
  rewrite (retry_first_ok _ _ j); [|unfold ATTEMPTS in *; lia|intros m Hm; apply Hbefore; lia|done].
  cbn [fst snd]. rewrite Nat.sub_0_r, slept_failed, attempts_failed.
  split_and!; [done|done| |]; unfold slept, attempts; simpl; lia.
Qed.

(** C31: when no attempt's [create_all] succeeds, [startup_event] raises
    after ten calls of [create_all], ten retry messages (each with its
    attempt's exception text) and fifty seconds of sleep: the loop sleeps
    after the last failure too, before the [else] clause raises. *)
Theorem startup_all_fail (failure : nat -> option string) (d : option Db) :
  (forall m, m < ATTEMPTS -> is_Some (failure m)) ->
  (startup_event failure d).1 = Raise msg_fail /\
  (startup_event failure d).2 = failed_iterations failure 0 ATTEMPTS /\
  slept (startup_event failure d).2 = 50%Z /\
  attempts (startup_event failure d).2 = ATTEMPTS.
Proof.
  intros Hfail. unfold startup_event.
  rewrite retry_all_fail by (intros j Hj; apply Hfail; lia).
  pose proof (slept_failed failure 0 ATTEMPTS []) as Hs.
  pose proof (attempts_failed failure 0 ATTEMPTS []) as Ha.
  rewrite app_nil_r in Hs, Ha. destruct d; cbn [fst snd]; by rewrite Hs, Ha.
Qed.

(** C32: the application starts if and only if one of the ten attempts'
    [create_all] succeeds. *)
Theorem startup_ok_iff (failure : nat -> option string) (d : option Db) :
  (exists db, (startup_event failure d).1 = Ret db) <->
  exists j, j < ATTEMPTS /\ failure j = None.
Proof.
  unfold startup_event.
  pose proof (retry_ok_iff ATTEMPTS 0 failure d) as Hiff.
  pose proof (retry_result ATTEMPTS 0 failure d) as Hres.
  destruct (retry ATTEMPTS 0 failure d) as [[ok d'] log]. simpl in *.
  destruct ok; injection Hres as ->.
  - split; [|intros _; by eexists]. intros _.
    destruct (proj1 Hiff eq_refl) as (j & Hj & Hr). exists j. split; [lia|done].
  - split; [by intros [db ?]|]. intros (j & Hj & Hr).
    assert (false = true) by (apply Hiff; exists j; split; [lia|done]). done.
Qed.

(** ** Witnesses *)

(** The database answers from the fourth attempt on; before, the
    connection is refused. *)
Definition from_fourth (i : nat) : option string :=
  if Nat.leb 3 i then None else Some "connection refused".

Lemma startup_first_success_witness :
  (startup_event from_fourth None).1 = Ret (create_all None) /\
  (startup_event from_fourth None).2 = failed_iterations from_fourth 0 3 ++ [CreateAll; Print msg_ok] /\
  slept (startup_event from_fourth None).2 = (5 * Z.of_nat 3)%Z /\
  attempts (startup_event from_fourth None).2 = S 3.
Proof.
  apply startup_first_success.
  - unfold ATTEMPTS. lia.
  - intros m Hm. unfold from_fourth. rewrite (proj2 (Nat.leb_gt 3 m)) by lia. by eexists.
  - vm_compute. reflexivity.
Defined.

Lemma startup_all_fail_witness :
  (startup_event (fun _ => Some "timeout") (Some empty_db)).1 = Raise msg_fail /\
  (startup_event (fun _ => Some "timeout") (Some empty_db)).2 =
    failed_iterations (fun _ => Some "timeout") 0 ATTEMPTS /\
  slept (startup_event (fun _ => Some "timeout") (Some empty_db)).2 = 50%Z /\
  attempts (startup_event (fun _ => Some "timeout") (Some empty_db)).2 = ATTEMPTS.
Proof. apply startup_all_fail. intros m _. by eexists. Defined.

End Startup.
