(* ===== verification/App.v ===== *)
(** * App: the service-level properties

    The invariant of the items table that the API maintains ([good], in
    [Handlers]), proved for every request, and the scenarios of the
    specification's testable properties (create then read, delete then
    read, update then read, three creations then list), each a sequence of
    requests through [serve]. *)

From stdpp Require Import base list gmap strings.
From Corelib Require Import PrimFloat.
From S2P Require Import Prelude Schema Table Session Handlers Startup.

Module App.
Import Table Session Handlers Startup.
Local Open Scope Z_scope.

(** ** The invariant of the items table *)

Lemma api_row_of (k : Z) (b : Pyd.ItemBase) : api_row (row_of k b).
Proof. split; simpl; by eexists. Qed.

(** A [SET] clause that never writes [NULL] into [nome] or [preco]. *)
Definition set_api (u : ColsSet) : Prop := u.1.1 <> Some None /\ u.2 <> Some None.

Lemma put_set_api (r : Row) (b : Pyd.ItemBase) : set_api (put_set r b).
Proof. unfold put_set, set_api; cbn. split; by case_match. Qed.

Lemma api_rows_update (k : Z) (u : ColsSet) (rows : list Row) :
  set_api u -> Forall api_row rows -> Forall api_row (update_by_id k u rows).2.
Proof.
  intros [Hn Hp] Hall. simpl. induction Hall as [|r rs [Hr1 Hr2] Hrs IH]; simpl; constructor; [|done].
  destruct (Z.eqb (row_id r) k); [|by split]. destruct u as [[un ud] up]; cbn in *.
  split; cbn; [destruct un as [[]|]|destruct up as [[]|]]; naive_solver.
Qed.

Lemma api_rows_delete (k : Z) (rows : list Row) :
  Forall api_row rows -> Forall api_row (delete_by_id k rows).2.
Proof.
  intros Hall. simpl. rewrite Forall_forall in *.
  intros x [_ Hx]%list_elem_of_filter. by apply Hall.
Qed.

(** What each route does to the database, read off the handler
    theorems: nothing, or one of the three writes, each answered with
    success. *)
Lemma serve_db_cases (r : Req) (db : Db) :
  wf db ->
  (serve r db).2 = db \/
  (exists b, db_seq db < INT4_MAX /\ r = PostItems b /\ is_Ret (serve r db).1 /\
     (serve r db).2 = mkDb (db_rows db ++ [row_of (db_seq db + 1) b]) (db_seq db + 1)) \/
  (exists k b row, select_by_id k (db_rows db) = Some row /\ r = PutItem k b /\
     is_Ret (serve r db).1 /\
     (serve r db).2 = mkDb (update_by_id k (put_set row b) (db_rows db)).2 (db_seq db)) \/
  (exists k, r = DeleteItem k /\ is_Ret (serve r db).1 /\
     (serve r db).2 = mkDb (delete_by_id k (db_rows db)).2 (db_seq db)).
Proof.
  intros Hwf. unfold serve. destruct r as [b|skip limit|k|k b|k]; simpl.
  - destruct (Z.ltb_spec (db_seq db) INT4_MAX) as [Hlt|Hge].
    + right; left. exists b. rewrite create_item_run by done. done.
    + left. by rewrite create_item_run_exhausted.
  - left. destruct (select_page (default 0 skip) (default 100 limit) (db_rows db)) eqn:Hp.
    + rewrite read_items_run by apply Hwf. by rewrite Hp.
    + by rewrite (read_items_run_error _ _ _ _ Hp).
  - left. destruct (select_by_id k (db_rows db)) as [row|] eqn:Hsel.
    + by rewrite (read_item_run_found _ _ row).
    + by rewrite read_item_run_missing.
  - destruct (select_by_id k (db_rows db)) as [row|] eqn:Hsel.
    + right; right; left. exists k, b, row. rewrite (update_item_run_found _ _ row) by done.
      by rewrite set_cols_put_set, serialized_body.
    + left. by rewrite update_item_run_missing.
  - destruct (select_by_id k (db_rows db)) as [row|] eqn:Hsel.
    + right; right; right. exists k. by rewrite (delete_item_run_found _ _ row).
    + left. by rewrite delete_item_run_missing.
Qed.

(** Every request keeps [good]. *)
Lemma serve_good (r : Req) (db : Db) : good db -> good (serve r db).2.
Proof.
  intros [Hwf Hapi].
  destruct (serve_db_cases r db Hwf)
    as [->|[(b & Hlt & _ & _ & ->)|[(k & b & row & _ & _ & _ & ->)|(k & _ & _ & ->)]]].
  - done.
  - split.
    + apply wf_insert; [done|]. by apply nextval_Ret.
    + simpl. apply Forall_app. split; [done|]. by apply Forall_singleton, api_row_of.
  - split; [by apply wf_update|apply api_rows_update; [apply put_set_api|done]].
  - split; [by apply wf_delete|by apply api_rows_delete].
Qed.

(** C14: every request, whatever it answers, leaves a database that
    satisfies the invariant when it found one that did (keys unique,
    issued by [items_id_seq] and within [integer], [nome] and [preco]
    never [NULL]); and a request that fails changes nothing: on such a
    database no request fails after its [COMMIT]. *)
Theorem serve_preserves_good (r : Req) (db : Db) :
  good db -> good (serve r db).2 /\ (is_Ret (serve r db).1 \/ (serve r db).2 = db).
Proof.
  intros Hg. split; [by apply serve_good|].
  destruct (serve_db_cases r db (proj1 Hg))
    as [?|[(? & ? & ? & ? & ?)|[(? & ? & ? & ? & ? & ? & ?)|(? & ? & ? & ?)]]]; auto.
Qed.

(** ** The scenarios of the specification's testable properties *)

(** C23: a created item reads back: [POST] then [GET /items/{id}] with
    the id the [POST] answered gives the same fields and id. *)
Theorem create_then_get (db : Db) (b : Pyd.ItemBase) :
  good db -> db_seq db < INT4_MAX ->
  let k := db_seq db + 1 in
  let db1 := (serve (PostItems b) db).2 in
  (serve (PostItems b) db).1 = Ret (BItem (Pyd.mkItem b k)) /\
  serve (GetItem k) db1 = (Ret (BItem (Pyd.mkItem b k)), db1).
Proof.
  intros [Hwf _] Hlt k db1. subst k db1. unfold serve; simpl.
  rewrite create_item_run by done. split; [done|]. simpl.
  rewrite (read_item_run_found _ _ (row_of (db_seq db + 1) b)); simpl.
  - unfold serialized. by rewrite item_of_row_of.
  - apply select_by_id_app_fresh, wf_fresh; [done|lia].
Qed.

(** C24: a deleted item is gone: [DELETE /items/{k}] of a stored key
    answers the confirmation, and a following [GET /items/{k}] raises the
    404 exception. *)
Theorem delete_then_get (db : Db) (k : Z) (r : Row) :
  select_by_id k (db_rows db) = Some r ->
  let db1 := (serve (DeleteItem k) db).2 in
  (serve (DeleteItem k) db).1 = Ret (BMessage deleted_message) /\
  serve (GetItem k) db1 = (Raise (HTTPException 404 not_found_detail), db1).
Proof.
  intros Hsel db1. subst db1. unfold serve; simpl.
  rewrite (delete_item_run_found _ _ r) by done. split; [done|].
  apply read_item_run_missing, select_by_id_delete.
Qed.

(** C25: create, read, update (a new price, say), read: the [PUT] and
    the last read answer the updated fields under the id the creation
    answered; a price that is not [==] to the stored one is stored as
    given. *)
Theorem update_then_get (db : Db) (b b' : Pyd.ItemBase) :
  good db -> db_seq db < INT4_MAX ->
  let k := db_seq db + 1 in
  let db1 := (serve (PostItems b) db).2 in
  let db2 := (serve (PutItem k b') db1).2 in
  (serve (PutItem k b') db1).1 = Ret (BItem (Pyd.mkItem (stored_base (body_cols b) b') k)) /\
  serve (GetItem k) db2 = (Ret (BItem (Pyd.mkItem (stored_base (body_cols b) b') k)), db2) /\
  (PrimFloat.eqb (Pyd.preco b') (Pyd.preco b) = false -> stored_base (body_cols b) b' = b').
Proof.
  intros [Hwf _] Hlt k db1 db2. subst k db1 db2.
  pose proof (wf_fresh db (db_seq db + 1) Hwf ltac:(lia)) as Hfresh.
  assert (Hk : nextval (db_seq db) = Ret (db_seq db + 1)) by (apply nextval_Ret; lia).
  unfold serve; simpl. rewrite create_item_run by done. simpl.
  assert (Hsel : select_by_id (db_seq db + 1) (db_rows db ++ [row_of (db_seq db + 1) b])
                 = Some (row_of (db_seq db + 1) b)) by (by apply select_by_id_app_fresh).
  rewrite (update_item_run_found _ _ (row_of (db_seq db + 1) b)); [simpl| |done].
  - rewrite set_cols_put_set, serialized_body. split_and!; [done| |].
    + rewrite (read_item_run_found _ _ (with_cols (db_seq db + 1)
                  (body_cols (stored_base (cols (row_of (db_seq db + 1) b)) b')))).
      * by rewrite serialized_body.
      * rewrite <- set_cols_put_set. exact (select_by_id_update _ _ _ _ Hsel).
    + destruct b' as [n' d' p']. unfold stored_base, kept_price; cbn. by intros ->.
  - by apply wf_insert.
Qed.

(** One successful [POST] on a well-formed table, and the well-formed
    table it leaves. *)
Lemma post_step (db : Db) (b : Pyd.ItemBase) :
  wf db -> db_seq db < INT4_MAX ->
  serve (PostItems b) db =
    (Ret (BItem (Pyd.mkItem b (db_seq db + 1))),
     mkDb (db_rows db ++ [row_of (db_seq db + 1) b]) (db_seq db + 1)) /\
  wf (mkDb (db_rows db ++ [row_of (db_seq db + 1) b]) (db_seq db + 1)).
Proof.
  intros Hwf Hlt. split; [by apply create_item_run|].
  apply wf_insert; [done|]. by apply nextval_Ret.
Qed.

(** C26: on a freshly created table, after three [POST]s, [GET /items/]
    with the default [skip=0, limit=100] answers three items, and with
    [limit=1] one item. *)
Theorem list_after_three_posts (b1 b2 b3 : Pyd.ItemBase) :
  let db3 := (serve (PostItems b3) (serve (PostItems b2)
                (serve (PostItems b1) empty_db).2).2).2 in
  (exists items, serve (GetItems None None) db3 = (Ret (BItems items), db3) /\
                 length items = 3%nat) /\
  (exists items, serve (GetItems None (Some 1)) db3 = (Ret (BItems items), db3) /\
                 length items = 1%nat).
Proof.
  intros db3. subst db3.
  destruct (post_step empty_db b1) as [-> W1]; [exact (proj1 good_empty)|done|]. cbn [snd].
  destruct (post_step _ b2 W1) as [-> W2]; [done|]. cbn [snd].
  destruct (post_step _ b3 W2) as [-> W3]; [done|]. cbn [snd].
  unfold serve; simpl. rewrite !read_items_run by apply W3. simpl.
  split; eexists; split; reflexivity.
Qed.

(** ** Witnesses *)

Lemma serve_preserves_good_witness :
  good (serve (DeleteItem 1) pen_db).2 /\
  (is_Ret (serve (DeleteItem 1) pen_db).1 \/ (serve (DeleteItem 1) pen_db).2 = pen_db).
Proof. apply serve_preserves_good. decide_good. Defined.

Lemma create_then_get_witness :
  (serve (PostItems pen) pen_db).1 = Ret (BItem (Pyd.mkItem pen 2)) /\
  serve (GetItem 2) (serve (PostItems pen) pen_db).2 =
    (Ret (BItem (Pyd.mkItem pen 2)), (serve (PostItems pen) pen_db).2).
Proof. apply (create_then_get pen_db pen); [decide_good|vm_compute; reflexivity]. Defined.

Lemma delete_then_get_witness :
  (serve (DeleteItem 1) pen_db).1 = Ret (BMessage deleted_message) /\
  serve (GetItem 1) (serve (DeleteItem 1) pen_db).2 =
    (Raise (HTTPException 404 not_found_detail), (serve (DeleteItem 1) pen_db).2).
Proof. apply (delete_then_get pen_db 1 (row_of 1 pen)). vm_compute. reflexivity. Defined.

Lemma update_then_get_witness :
  (serve (PutItem 2 pen2) (serve (PostItems pen) pen_db).2).1 =
    Ret (BItem (Pyd.mkItem (stored_base (body_cols pen) pen2) 2)) /\
  serve (GetItem 2) (serve (PutItem 2 pen2) (serve (PostItems pen) pen_db).2).2 =
    (Ret (BItem (Pyd.mkItem (stored_base (body_cols pen) pen2) 2)),
     (serve (PutItem 2 pen2) (serve (PostItems pen) pen_db).2).2) /\
  (PrimFloat.eqb (Pyd.preco pen2) (Pyd.preco pen) = false -> stored_base (body_cols pen) pen2 = pen2).
Proof. apply (update_then_get pen_db pen); [decide_good|vm_compute; reflexivity]. Defined.

End App.
