(* ===== verification/Server.v ===== *)
(** * Server: the life of the server process

    FastAPI runs [startup_event] (src/main.py lines 51-63) before it serves
    requests; if it raises, the application does not start.  A running
    process serves requests one at a time against the database; a process
    can stop and a new one start on the same database, whose table then
    already exists.  The server's states form a step relation, and the
    invariant of the items table holds in every state reachable from a
    fresh database. *)

From stdpp Require Import base list gmap strings.
From S2P Require Import Prelude Schema Table Session Handlers Startup App.

Module Server.
Import Table Session Handlers Startup App.

(** The database server's state: [None] until [items] exists; and
    whether the application process is serving. *)
Record Server : Type := mkServer {
  srv_db : option Db;
  srv_up : bool
}.

Inductive Event : Type :=
  | EvStartup (failure : nat -> option string) (res : outcome string Db)
  | EvRequest (r : Req) (resp : outcome Exc Body)
  | EvStop.

(** A process starts (running [startup_event]), serves requests one at a
    time, or stops; a new process may start on the same database. *)
Inductive step : Server -> Event -> Server -> Prop :=
  | step_startup_ok failure d db log :
      startup_event failure d = (Ret db, log) ->
      step (mkServer d false) (EvStartup failure (Ret db)) (mkServer (Some db) true)
  | step_startup_fail failure d msg log :
      startup_event failure d = (Raise msg, log) ->
      step (mkServer d false) (EvStartup failure (Raise msg)) (mkServer d false)
  | step_request r db resp db' :
      serve r db = (resp, db') ->
      step (mkServer (Some db) true) (EvRequest r resp) (mkServer (Some db') true)
  | step_stop d :
      step (mkServer d true) EvStop (mkServer d false).

(** A fresh database: the table has never been created. *)
Definition initial : Server := mkServer None false.

Inductive reachable_from (s0 : Server) : Server -> Prop :=
  | reach_refl : reachable_from s0 s0
  | reach_step s e s' : reachable_from s0 s -> step s e s' -> reachable_from s0 s'.

Definition server_inv (s : Server) : Prop :=
  (forall db, srv_db s = Some db -> good db) /\
  (srv_up s = true -> is_Some (srv_db s)).

Lemma startup_event_good (failure : nat -> option string) (d : option Db) (db : Db) log :
  (forall db0, d = Some db0 -> good db0) ->
  startup_event failure d = (Ret db, log) -> good db.
Proof.
  intros Hd Hst.
  assert (Hdb : db = create_all d) by (apply (startup_event_Ret failure); by rewrite Hst).
  subst db. destruct d as [db0|]; [by apply Hd|apply good_empty].
Qed.

Lemma step_inv (s s' : Server) (e : Event) :
  server_inv s -> step s e s' -> server_inv s'.
Proof.
  intros [Hdb Hup] Hstep. destruct Hstep as [? ? ? ? Hst|? ? ? ? Hst|r db resp db' Hsrv|d];
    simpl in *; split; simpl; try done.
  - intros db0 [= <-]. by eapply startup_event_good.
  - intros db0 [= <-]. pose proof (serve_good r db (Hdb db eq_refl)) as Hg.
    by rewrite Hsrv in Hg.
Qed.

(** C15: in every state a server reaches from a fresh database, the
    stored table satisfies the invariant, and a serving process always
    has its table. *)
Theorem reachable_inv (s : Server) :
  reachable_from initial s -> server_inv s.
Proof.
  induction 1 as [|s e s' _ IH Hstep].
  - split; [done|]. done.
  - by eapply step_inv.
Qed.

(** ** Witness *)

Lemma reachable_inv_witness : server_inv (mkServer (Some pen_db) true).
Proof.
  apply reachable_inv. eapply reach_step; [eapply reach_step; [apply reach_refl|]|].
  - apply (step_startup_ok (fun _ => None) None empty_db [CreateAll; Print msg_ok]).
    vm_compute. reflexivity.
  - apply (step_request (PostItems pen) empty_db (Ret (BItem (Pyd.mkItem pen 1))) pen_db).
    vm_compute. reflexivity.
Defined.

End Server.
