(* ===== verification/Concurrent.v ===== *)
(** * Concurrent: requests interleaved on the shared table

    The server may run several requests at once (spec, section 5); each
    has its own session, and the only shared state is the database.  A
    request in flight is a thread that executes its SQL statements one at
    a time, in the order its handler issues them:
    - [POST]: [INSERT ... RETURNING id] (the key from [nextval], visible
      to others at once), [COMMIT] (the row becomes visible), the
      [SELECT] of [refresh];
    - [GET /items/]: the page [SELECT];  [GET /items/{k}]: the [SELECT];
    - [PUT]: the [SELECT], the [UPDATE ... WHERE id = k] of the columns
      the body changes with respect to the row the [SELECT] read (its row
      count checked by the flush; no [UPDATE] when nothing changed),
      [COMMIT], the [SELECT] of [refresh];
    - [DELETE]: the [SELECT], the [DELETE ... WHERE id = k] (a row count
      of 0 is only a warning), [COMMIT].
    The isolation level is PostgreSQL's default, READ COMMITTED: every
    statement sees the rows committed when it starts.  An [UPDATE] or
    [DELETE] takes a lock on the row it matches until its transaction
    commits, and a writer that meets a locked row waits for the holder's
    commit and then evaluates its [WHERE] on the new version; here the
    waiting writer's step is not enabled while another thread holds the
    lock.  The write between a statement and its transaction's [COMMIT]
    is invisible to the others, so it is applied at the [COMMIT] step,
    on the rows committed then.

    [thread_step] is one statement; [pstep] picks any thread (or admits a
    new request) and is the interleaving semantics.  Run alone, the
    thread of a request gives exactly what [serve] gives.  The races the
    code allows are stated for every table meeting their preconditions:
    a fixed schedule of thread indices, run on a symbolic pool. *)

From stdpp Require Import base list gmap strings relations.
From Corelib Require Import PrimFloat.
From S2P Require Import Prelude Schema Table Session Handlers App.

Module Concurrent.
Import Table Session Handlers App.
Local Open Scope Z_scope.

(** ** Threads *)

(** A request in flight, named after the statement it executes next. *)
Inductive Thread : Type :=
  | TPostInsert (b : Pyd.ItemBase)            (** [INSERT ... RETURNING id] *)
  | TPostCommit (k : Z) (b : Pyd.ItemBase)    (** [COMMIT] of the inserted row [k] *)
  | TRefresh (k : Z)                          (** the [SELECT] of [db.refresh] *)
  | TList (skip limit : Z)                    (** the page [SELECT] *)
  | TGet (k : Z)                              (** [SELECT ... WHERE id = k] *)
  | TPutSelect (k : Z) (b : Pyd.ItemBase)     (** [SELECT ... WHERE id = k] *)
  | TPutUpdate (k : Z) (b : Pyd.ItemBase) (r : Row)
      (** [UPDATE items SET .. WHERE id = k] of the columns of [b] that differ
          from the row [r] the [SELECT] loaded *)
  | TPutCommit (k : Z) (b : Pyd.ItemBase) (r : Row) (wrote : bool)
      (** [COMMIT], holding the lock on [k] if the [UPDATE] was issued *)
  | TDelSelect (k : Z)                        (** [SELECT ... WHERE id = k] *)
  | TDelDelete (k : Z)                        (** [DELETE ... WHERE id = k] *)
  | TDelCommit (k : Z) (matched : bool)       (** [COMMIT], holding the lock if [matched] *)
  | TDone (o : outcome Exc Body).             (** the answer *)

(** The thread of a request, query defaults applied. *)
Definition start (r : Req) : Thread :=
  match r with
  | PostItems b => TPostInsert b
  | GetItems skip limit => TList (default 0 skip) (default 100 limit)
  | GetItem k => TGet k
  | PutItem k b => TPutSelect k b
  | DeleteItem k => TDelSelect k
  end.

(** The row lock a thread holds: the row it inserted, updated or deleted,
    until its [COMMIT]. *)
Definition lock_of (t : Thread) : option Z :=
  match t with
  | TPostCommit k _ | TPutCommit k _ _ true | TDelCommit k true => Some k
  | _ => None
  end.

(** The answer to a [SELECT] by key: the serialised row, or the exception
    of a missing one. *)
Definition answer_row (o : option Row) (missing : Exc) : outcome Exc Body :=
  match o with Some r => serialized r | None => Raise missing end.

Definition answer_page (o : outcome DbError (list Row)) : outcome Exc Body :=
  match o with
  | Ret page =>
      match mapM item_of_row page with
      | Some items => Ret (BItems items)
      | None => Raise ResponseValidationError
      end
  | Raise e => Raise (DBAPIError e)
  end.

(** One statement of a thread on the committed table; [None] when the
    thread is finished or waits for a lock [locked] says another thread
    holds. *)
Definition thread_step (locked : Z -> bool) (t : Thread) (db : Db) : option (Thread * Db) :=
  match t with
  | TPostInsert b =>
      Some (match nextval (db_seq db) with
            | Ret k =>
                match insert_row (row_of k b) (db_rows db) with
                | Ret _ => (TPostCommit k b, mkDb (db_rows db) k)
                | Raise e => (TDone (Raise (DBAPIError e)), mkDb (db_rows db) k)
                end
            | Raise e => (TDone (Raise (DBAPIError e)), db)
            end)
  | TPostCommit k b => Some (TRefresh k, mkDb (db_rows db ++ [row_of k b]) (db_seq db))
  | TRefresh k => Some (TDone (answer_row (select_by_id k (db_rows db)) InvalidRequestError), db)
  | TList skip limit => Some (TDone (answer_page (select_page skip limit (db_rows db))), db)
  | TGet k =>
      Some (TDone (answer_row (select_by_id k (db_rows db)) (HTTPException 404 not_found_detail)), db)
  | TPutSelect k b =>
      Some (match select_by_id k (db_rows db) with
            | Some r => if empty_set (put_set r b) then TPutCommit k b r false else TPutUpdate k b r
            | None => TDone (Raise (HTTPException 404 not_found_detail))
            end, db)
  | TPutUpdate k b r =>
      if locked k then None
      else Some (if Nat.eqb (update_by_id k (put_set r b) (db_rows db)).1 1
                 then TPutCommit k b r true else TDone (Raise StaleDataError), db)
  | TPutCommit k b r wrote =>
      Some (TRefresh k, if wrote then mkDb (update_by_id k (put_set r b) (db_rows db)).2 (db_seq db)
                        else db)
  | TDelSelect k =>
      Some (match select_by_id k (db_rows db) with
            | Some _ => TDelDelete k
            | None => TDone (Raise (HTTPException 404 not_found_detail))
            end, db)
  | TDelDelete k =>
      if locked k then None else Some (TDelCommit k (has_id k (db_rows db)), db)
  | TDelCommit k _ =>
      Some (TDone (Ret (BMessage deleted_message)), mkDb (delete_by_id k (db_rows db)).2 (db_seq db))
  | TDone _ => None
  end.

(** ** The pool of requests in flight *)

Record Pool : Type := mkPool { p_db : Db; p_threads : list Thread }.

(** A lock on [k] held by a thread other than the [i]-th; [j] is the
    index of the first thread of [ts]. *)
Fixpoint locked_from (j : nat) (ts : list Thread) (i : nat) (k : Z) : bool :=
  match ts with
  | [] => false
  | t :: ts' => (negb (Nat.eqb j i) && bool_decide (lock_of t = Some k)) || locked_from (S j) ts' i k
  end.

Definition locked (ts : list Thread) (i : nat) (k : Z) : bool := locked_from 0 ts i k.

(** A request arrives, or one thread executes a statement. *)
Inductive pstep : Pool -> Pool -> Prop :=
  | pstep_arrive (r : Req) (p : Pool) :
      pstep p (mkPool (p_db p) (p_threads p ++ [start r]))
  | pstep_run (i : nat) (t t' : Thread) (db' : Db) (p : Pool) :
      p_threads p !! i = Some t ->
      thread_step (locked (p_threads p) i) t (p_db p) = Some (t', db') ->
      pstep p (mkPool db' (<[i := t']> (p_threads p))).

(** Only statements, no new request. *)
Inductive prun : Pool -> Pool -> Prop :=
  | prun_step (i : nat) (t t' : Thread) (db' : Db) (p : Pool) :
      p_threads p !! i = Some t ->
      thread_step (locked (p_threads p) i) t (p_db p) = Some (t', db') ->
      prun p (mkPool db' (<[i := t']> (p_threads p))).

(** An executable schedule: the indices of the threads to step, in
    order. *)
Definition run_at (i : nat) (p : Pool) : option Pool :=
  match p_threads p !! i with
  | Some t =>
      match thread_step (locked (p_threads p) i) t (p_db p) with
      | Some (t', db') => Some (mkPool db' (<[i := t']> (p_threads p)))
      | None => None
      end
  | None => None
  end.

Fixpoint run_sched (sched : list nat) (p : Pool) : option Pool :=
  match sched with
  | [] => Some p
  | i :: sched' => match run_at i p with Some p' => run_sched sched' p' | None => None end
  end.

(** A thread run with nobody else, for at most [fuel] statements. *)
Fixpoint run_alone (fuel : nat) (t : Thread) (db : Db) : option (outcome Exc Body * Db) :=
  match t with
  | TDone o => Some (o, db)
  | _ =>
      match fuel with
      | O => None
      | S fuel' =>
          match thread_step (fun _ => false) t db with
          | Some (t', db') => run_alone fuel' t' db'
          | None => None
          end
      end
  end.


(** Statements a thread has left. *)
Definition remaining (t : Thread) : nat :=
  match t with
  | TPostInsert _ => 3 | TPostCommit _ _ => 2 | TRefresh _ => 1
  | TList _ _ | TGet _ => 1
  | TPutSelect _ _ => 4 | TPutUpdate _ _ _ => 3 | TPutCommit _ _ _ _ => 2
  | TDelSelect _ => 3 | TDelDelete _ => 2 | TDelCommit _ _ => 1
  | TDone _ => 0
  end.

Definition is_done (t : Thread) : bool := match t with TDone _ => true | _ => false end.

(** Statements the pool has left. *)
Definition total (p : Pool) : nat := sum_list (map remaining (p_threads p)).

(** The keys inserted and not yet committed. *)
Definition pending (t : Thread) : option Z :=
  match t with TPostCommit k _ => Some k | _ => None end.

(** The invariant of the pool, over the table and the keys of the
    uncommitted inserts: the table satisfies [good]; those keys are
    distinct, issued by the sequence, and held by no committed row. *)
Definition inv_parts (db : Db) (pend : list Z) : Prop :=
  good db /\ NoDup pend /\
  Forall (fun k => 1 <= k <= db_seq db /\ has_id k (db_rows db) = false) pend.

Definition pool_inv (p : Pool) : Prop := inv_parts (p_db p) (omap pending (p_threads p)).

(** ** A thread run alone is the handler *)

Lemma select_row_of_fresh (k : Z) (b : Pyd.ItemBase) (rows : list Row) :
  has_id k rows = false -> select_by_id k (rows ++ [row_of k b]) = Some (row_of k b).
Proof. apply select_by_id_app_fresh. Qed.

Lemma answer_row_of (k : Z) (b : Pyd.ItemBase) (e : Exc) :
  answer_row (Some (row_of k b)) e = Ret (BItem (Pyd.mkItem b k)).
Proof. unfold answer_row, serialized. by rewrite item_of_row_of. Qed.

(** C8: a request's thread, run with no other request in flight, takes
    exactly [remaining] statements and answers what the session-level
    handler [serve] answers, with the same database: the statement-level
    model refines nothing away. *)
Theorem run_alone_serve (r : Req) (db : Db) :
  wf db -> run_alone (remaining (start r)) (start r) db = Some (serve r db).
Proof.
  intros Hwf. unfold serve. destruct r as [b|s l|k|k b|k]; cbn [start remaining handler_of].
  - destruct (Z.ltb_spec (db_seq db) INT4_MAX) as [Hlt|Hge].
    + rewrite create_item_run by done.
      assert (Hk : nextval (db_seq db) = Ret (db_seq db + 1)) by (apply nextval_Ret; lia).
      cbn [run_alone thread_step]. rewrite Hk.
      rewrite (insert_row_fresh db _ (body_cols b) Hwf Hk : insert_row (row_of _ b) _ = _). cbn [run_alone thread_step db_rows db_seq].
      rewrite select_row_of_fresh by (apply wf_fresh; [done|lia]).
      by rewrite answer_row_of.
    + rewrite create_item_run_exhausted by done.
      assert (Hk : nextval (db_seq db) = Raise SequenceExhausted).
      { unfold nextval. destruct (Z.ltb_spec (db_seq db) INT4_MAX); [lia|done]. }
      cbn [run_alone thread_step]. by rewrite Hk.
  - rewrite read_items_run by apply Hwf. cbn [run_alone thread_step]. unfold answer_page.
    by destruct (select_page _ _ _) as [page|e]; [destruct (mapM item_of_row page)|].
  - cbn [run_alone thread_step]. destruct (select_by_id k (db_rows db)) as [row|] eqn:Hsel.
    + by rewrite (read_item_run_found _ _ row).
    + by rewrite read_item_run_missing.
  - cbn [run_alone thread_step]. destruct (select_by_id k (db_rows db)) as [row|] eqn:Hsel.
    + rewrite (update_item_run_found _ _ row) by done.
      destruct Hwf as (Hnd & _ & _). destruct (select_by_id_Some _ _ _ Hsel) as [Hk Hhas].
      destruct (empty_set (put_set row b)) eqn:He; cbn [run_alone thread_step].
      * apply empty_set_true in He. rewrite He, update_by_id_none, Hsel.
        cbn [answer_row]. rewrite <- Hk at 1. rewrite set_cols_none, with_cols_cols. by destruct db.
      * rewrite (update_by_id_count k _ _ Hnd Hhas).
        cbn [run_alone thread_step fst snd db_rows db_seq Nat.eqb].
        by rewrite (select_by_id_update _ _ _ _ Hsel).
    + by rewrite update_item_run_missing.
  - cbn [run_alone thread_step]. destruct (select_by_id k (db_rows db)) as [row|] eqn:Hsel.
    + by rewrite (delete_item_run_found _ _ row).
    + by rewrite delete_item_run_missing.
Qed.

(** ** The invariant holds in every interleaving *)

#[export] Instance inv_parts_proper : Proper (eq ==> (≡ₚ) ==> iff) inv_parts.
Proof. intros db ? <- l1 l2 Hp. unfold inv_parts. by rewrite Hp. Qed.

Lemma pending_insert (ts : list Thread) (i : nat) (t t' : Thread) :
  ts !! i = Some t ->
  exists rest, omap pending ts ≡ₚ option_list (pending t) ++ rest /\
               omap pending (<[i := t']> ts) ≡ₚ option_list (pending t') ++ rest.
Proof.
  intros Hi. exists (omap pending (take i ts ++ drop (S i) ts)).
  assert (Hlen : (i < length ts)%nat) by (by eapply lookup_lt_Some).
  assert (Hts : ts = take i ts ++ t :: drop (S i) ts) by (symmetry; by apply take_drop_middle).
  split.
  - rewrite Hts at 1. rewrite !omap_app. simpl.
    destruct (pending t); simpl; [|done]. by rewrite Permutation_middle.
  - rewrite insert_take_drop by done. rewrite !omap_app. simpl.
    destruct (pending t'); simpl; [|done]. by rewrite Permutation_middle.
Qed.

Lemma has_id_snoc (k : Z) (rows : list Row) (r : Row) :
  has_id k (rows ++ [r]) = has_id k rows || Z.eqb (row_id r) k.
Proof. unfold has_id. rewrite existsb_app. simpl. by rewrite orb_false_r. Qed.

Lemma has_id_update (k' k : Z) (u : ColsSet) (rows : list Row) :
  has_id k' (update_by_id k u rows).2 = has_id k' rows.
Proof.
  unfold has_id. simpl. induction rows as [|r rs IH]; [done|]. simpl.
  destruct (Z.eqb_spec (row_id r) k) as [Hr|Hr]; simpl; rewrite IH; [|done]. by rewrite Hr.
Qed.

Lemma has_id_delete (k' k : Z) (rows : list Row) :
  has_id k' rows = false -> has_id k' (delete_by_id k rows).2 = false.
Proof.
  unfold has_id. intros Hk. apply not_true_iff_false in Hk. apply not_true_iff_false.
  intros (r & Hr%list_elem_of_In & Hid)%existsb_exists. apply Hk, existsb_exists.
  apply list_elem_of_filter in Hr as [_ Hr]. exists r. by rewrite <- list_elem_of_In.
Qed.

Lemma inv_nextval (db : Db) (k : Z) (rest : list Z) :
  nextval (db_seq db) = Ret k -> inv_parts db rest -> inv_parts (mkDb (db_rows db) k) rest.
Proof.
  intros Hk ([Hwf Hapi] & Hnd & Hall). pose proof Hk as [_ Heq]%nextval_Ret.
  split_and!; [split; [by apply wf_nextval|done]|done|].
  eapply Forall_impl; [exact Hall|]. intros x [? ?]. split; [simpl; lia|done].
Qed.

Lemma inv_insert (db : Db) (k : Z) (rest : list Z) :
  nextval (db_seq db) = Ret k -> has_id k (db_rows db) = false ->
  inv_parts db rest -> inv_parts (mkDb (db_rows db) k) (k :: rest).
Proof.
  intros Hk Hfresh Hinv. pose proof (inv_nextval _ _ _ Hk Hinv) as (Hg & Hnd & Hall).
  destruct Hinv as ([(_ & _ & Hseq) _] & _ & Hall0). apply nextval_Ret in Hk as [Hlt ->].
  split_and!; [done| |].
  - constructor; [|done]. intros Hin. rewrite Forall_forall in Hall0.
    destruct (Hall0 _ Hin) as [[_ ?] _]. lia.
  - constructor; [|done]. cbn. split; [lia|done].
Qed.

Lemma inv_commit_insert (db : Db) (k : Z) (b : Pyd.ItemBase) (rest : list Z) :
  inv_parts db (k :: rest) ->
  inv_parts (mkDb (db_rows db ++ [row_of k b]) (db_seq db)) rest.
Proof.
  intros (((Hnd & Hall & Hseq) & Hapi) & [Hnotin Hndr]%NoDup_cons & [[Hk Hfresh] Hrest]%Forall_cons).
  split; [split; [split; [|split]|]|split]; cbn [db_rows db_seq]; [| |done| |done|].
  - unfold ids. rewrite map_app. apply NoDup_app. split_and!; [done| |apply NoDup_singleton].
    intros x Hx ->%list_elem_of_singleton. by apply (has_id_false_ids k (db_rows db)).
  - apply Forall_app. split; [done|]. apply Forall_singleton. cbn. lia.
  - apply Forall_app. split; [done|]. apply Forall_singleton, api_row_of.
  - rewrite Forall_forall in *. intros k' Hk'. destruct (Hrest k' Hk') as [? ?].
    split; [done|]. rewrite has_id_snoc, H0. cbn. apply Z.eqb_neq. intros ->. by apply Hnotin.
Qed.

Lemma inv_update (db : Db) (k : Z) (b : Pyd.ItemBase) (r : Row) (rest : list Z) :
  inv_parts db rest ->
  inv_parts (mkDb (update_by_id k (put_set r b) (db_rows db)).2 (db_seq db)) rest.
Proof.
  intros ([Hwf Hapi] & Hnd & Hall). split_and!; [split| |].
  - by apply wf_update.
  - apply api_rows_update; [apply put_set_api|done].
  - done.
  - eapply Forall_impl; [exact Hall|]. intros x [? ?]. cbn [db_seq db_rows].
    by rewrite has_id_update.
Qed.

Lemma inv_delete (db : Db) (k : Z) (rest : list Z) :
  inv_parts db rest -> inv_parts (mkDb (delete_by_id k (db_rows db)).2 (db_seq db)) rest.
Proof.
  intros ([Hwf Hapi] & Hnd & Hall). split_and!; [split| |].
  - by apply wf_delete.
  - by apply api_rows_delete.
  - done.
  - eapply Forall_impl; [exact Hall|]. intros x [? ?]. cbn [db_seq db_rows].
    split; [done|]. by apply has_id_delete.
Qed.

(** One statement keeps the invariant, whatever the other threads'
    uncommitted keys [rest]. *)
Lemma thread_step_inv (lk : Z -> bool) (t t' : Thread) (db db' : Db) (rest : list Z) :
  thread_step lk t db = Some (t', db') ->
  inv_parts db (option_list (pending t) ++ rest) ->
  inv_parts db' (option_list (pending t') ++ rest).
Proof.
  destruct t; cbn [thread_step pending option_list app]; intros Hs Hinv;
    repeat case_match; simplify_eq/=; try done.
  - apply inv_insert; [done| |done]. unfold insert_row in *. by case_match.
  - by eapply inv_nextval.
  - by apply inv_commit_insert.
  - by apply inv_update.
  - by apply inv_delete.
Qed.

Lemma pstep_inv (p p' : Pool) : pool_inv p -> pstep p p' -> pool_inv p'.
Proof.
  intros Hinv Hs. destruct Hs as [r p|i t t' db' p Hi Hstep]; unfold pool_inv in *; cbn.
  - rewrite omap_app. destruct r; simpl; by rewrite app_nil_r.
  - destruct (pending_insert _ _ _ t' Hi) as (rest & Hp & Hp'). rewrite Hp'.
    rewrite Hp in Hinv. by eapply thread_step_inv.
Qed.

(** ** No deadlock, and every run of statements ends *)

Lemma thread_step_remaining (lk : Z -> bool) (t t' : Thread) (db db' : Db) :
  thread_step lk t db = Some (t', db') -> (remaining t' < remaining t)%nat.
Proof. destruct t; cbn [thread_step]; intros Hs; repeat case_match; simplify_eq/=; lia. Qed.

Lemma total_insert (ts : list Thread) (i : nat) (t t' : Thread) :
  ts !! i = Some t ->
  (sum_list (map remaining (<[i := t']> ts)) + remaining t =
   sum_list (map remaining ts) + remaining t')%nat.
Proof.
  revert i. induction ts as [|x ts IH]; intros [|i] Hi; simplify_eq/=; [lia|].
  specialize (IH i Hi). lia.
Qed.

Lemma prun_total (p p' : Pool) : prun p p' -> (total p' < total p)%nat.
Proof.
  intros [i t t' db' q Hi Hs]. unfold total. cbn [p_threads].
  pose proof (total_insert _ _ _ t' Hi). pose proof (thread_step_remaining _ _ _ _ _ Hs). lia.
Qed.

Lemma locked_from_true (j : nat) (ts : list Thread) (i : nat) (k : Z) :
  locked_from j ts i k = true ->
  exists n t, ts !! n = Some t /\ (j + n)%nat <> i /\ lock_of t = Some k.
Proof.
  revert j. induction ts as [|t ts IH]; intros j; simpl; [done|].
  intros [[Hj Hk]%andb_true_iff|Hr]%orb_true_iff.
  - exists 0%nat, t. apply negb_true_iff, Nat.eqb_neq in Hj. apply bool_decide_eq_true in Hk.
    split_and!; [done|lia|done].
  - destruct (IH (S j) Hr) as (n & u & Hn & Hne & Hu). exists (S n), u. split_and!; [done|lia|done].
Qed.

(** A lock holder is never blocked: its next statement is its [COMMIT]. *)
Lemma lock_holder_step (lk : Z -> bool) (t : Thread) (db : Db) (k : Z) :
  lock_of t = Some k -> exists t' db', thread_step lk t db = Some (t', db').
Proof. destruct t; cbn; intros Hk; simplify_eq; try destruct matched; try destruct wrote; simplify_eq; eauto. Qed.

Lemma thread_step_blocked (lk : Z -> bool) (t : Thread) (db : Db) :
  thread_step lk t db = None -> is_done t = true \/ exists k, lk k = true.
Proof. destruct t; cbn; intros Hs; try done; try (case_match; [eauto|done]); auto. Qed.

Lemma pool_progress (p : Pool) (i : nat) (t : Thread) :
  p_threads p !! i = Some t -> is_done t = false ->
  exists p', prun p p'.
Proof.
  intros Hi Hnd.
  destruct (thread_step (locked (p_threads p) i) t (p_db p)) as [[t' db']|] eqn:Hs.
  - eexists. by econstructor.
  - destruct (thread_step_blocked _ _ _ Hs) as [Hd|[k Hk]]; [congruence|].
    apply locked_from_true in Hk as (j & u & Hj & _ & Hu).
    destruct (lock_holder_step (locked (p_threads p) j) u (p_db p) k Hu) as (u' & db' & Hs').
    eexists. by econstructor.
Qed.

(** No run of statements is infinite: without new requests, the pool
    reaches, whatever the scheduler does, a state where no statement is
    enabled. *)
Lemma prun_terminates : well_founded (fun p' p => prun p p').
Proof.
  apply (wf_projected (<)%nat total); [|apply lt_wf].
  intros p' p Hs. by apply prun_total.
Qed.

(** C16: no deadlock: from any pool, whatever the interleaving so far,
    the requests in flight can all be answered without new requests
    arriving: a writer that waits for a row lock waits for a thread
    whose next statement is its [COMMIT]. *)
Theorem pool_drains (p : Pool) :
  exists p', rtc prun p p' /\ Forall (fun t => is_done t = true) (p_threads p').
Proof.
  induction p as [p IH] using (well_founded_induction prun_terminates).
  destruct (decide (Forall (fun t => is_done t = true) (p_threads p))) as [Hall|Hall].
  - exists p. split; [apply rtc_refl|done].
  - apply not_Forall_Exists in Hall; [|apply _].
    apply Exists_exists in Hall as (t & Ht & Hnd%not_true_iff_false).
    apply list_elem_of_lookup in Ht as [i Hi].
    destruct (pool_progress p i t Hi Hnd) as [p' Hs].
    destruct (IH p' Hs) as (p'' & Hrun & Hdone). exists p''. split; [|done].
    by eapply rtc_l.
Qed.

(** ** The invariant in every reachable pool *)

(** C10: every interleaving of any requests, started on a table that
    satisfies [good] with no request in flight, keeps the pool invariant:
    the table satisfies [good] after every statement (keys unique and
    issued by the sequence, [nome] and [preco] never [NULL]), and the keys
    of inserts not yet committed are distinct and fresh. *)
Theorem reachable_pool_inv (db : Db) (p : Pool) :
  good db -> rtc pstep (mkPool db []) p -> pool_inv p.
Proof.
  intros Hg Hr. assert (H0 : pool_inv (mkPool db [])) by (split_and!; [done|constructor|constructor]).
  revert H0. induction Hr as [q|q q' q'' Hs _ IH]; [done|]. intros Hq. apply IH. by eapply pstep_inv.
Qed.

(** ** Interleavings the specification does not describe *)

Lemma run_at_pstep (i : nat) (p p' : Pool) : run_at i p = Some p' -> pstep p p'.
Proof. unfold run_at. repeat case_match; intros; simplify_eq. by econstructor. Qed.

Lemma run_sched_rtc (sched : list nat) (p p' : Pool) :
  run_sched sched p = Some p' -> rtc pstep p p'.
Proof.
  revert p. induction sched as [|i sched IH]; intros p; simpl; [intros [= ->]; apply rtc_refl|].
  destruct (run_at i p) as [q|] eqn:Hq; [|done]. intros Hs.
  eapply rtc_l; [by apply (run_at_pstep i)|by apply IH].
Qed.

(** Run a schedule on a symbolic pool: one statement at a time, the
    facts in the context rewriting the statements' results. *)
Ltac rewrite_facts :=
  repeat match goal with
  | H : ?x = _ |- context [?x] => progress rewrite H
  | |- context [bool_decide (@None Z = Some ?k)] => rewrite (bool_decide_false (None = Some k)) by done
  | |- context [bool_decide (Some ?k = Some ?k)] => rewrite (bool_decide_true (Some k = Some k)) by done
  end.

Ltac run_sched_steps :=
  cbv [run_sched];
  repeat (unfold run_at at 1;
          cbn -[nextval insert_row select_by_id select_page update_by_id delete_by_id has_id
                put_set empty_set serialized];
          rewrite_facts).

Lemma delete_by_id_app_fresh (k : Z) (c : Cols) (rows : list Row) :
  has_id k rows = false -> (delete_by_id k (rows ++ [with_cols k c])).2 = rows.
Proof.
  induction rows as [|r rs IH]; cbn [app]; rewrite ?has_id_cons.
  - intros _. unfold delete_by_id. cbn [snd]. rewrite filter_cons_False; [done|].
    by intros [].
  - intros [Hr%Z.eqb_neq Hrs]%orb_false_iff. unfold delete_by_id in *. cbn [snd] in *.
    rewrite filter_cons_True by done. by rewrite IH.
Qed.

(** C28: a [POST] can answer 500 although its row was committed: from
    any good table whose sequence is not exhausted, a [DELETE] of the
    key the [POST] is about to draw can run between the [POST]'s
    [COMMIT] and its [refresh], which then fails ([InvalidRequestError]);
    the [DELETE] answers its confirmation and the table ends as it was,
    with the key consumed. *)
Theorem post_refresh_after_delete (db : Db) (b : Pyd.ItemBase) :
  wf db -> db_seq db < INT4_MAX ->
  rtc pstep (mkPool db [start (PostItems b); start (DeleteItem (db_seq db + 1))])
    (mkPool (mkDb (db_rows db) (db_seq db + 1))
       [TDone (Raise InvalidRequestError); TDone (Ret (BMessage deleted_message))]).
Proof.
  intros Hwf Hlt. set (k := db_seq db + 1).
  assert (Hk : nextval (db_seq db) = Ret k) by (apply nextval_Ret; done).
  pose proof (wf_fresh db k Hwf ltac:(lia)) as Hfresh.
  assert (Hins : insert_row (row_of k b) (db_rows db) = Ret (db_rows db ++ [row_of k b]))
    by (apply insert_row_fresh; done).
  assert (Hsel : select_by_id k (db_rows db ++ [row_of k b]) = Some (row_of k b))
    by (apply select_by_id_app_fresh; done).
  assert (Hdel : (delete_by_id k (db_rows db ++ [row_of k b])).2 = db_rows db)
    by (apply delete_by_id_app_fresh; done).
  assert (Hgone : select_by_id k (db_rows db) = None) by (apply select_by_id_None; done).
  apply (run_sched_rtc [0; 0; 1; 1; 1; 0]%nat).
  run_sched_steps. reflexivity.
Qed.

Lemma update_by_id_missing (k : Z) (u : ColsSet) (rows : list Row) :
  select_by_id k rows = None -> (update_by_id k u rows).1 = 0%nat.
Proof.
  intros Hn%select_by_id_None. unfold update_by_id. cbn [fst].
  induction rows as [|r' rs IH]; [done|]. rewrite has_id_cons in Hn.
  apply orb_false_iff in Hn as [Hr%Z.eqb_neq Hrs]. rewrite filter_cons_False by done. by apply IH.
Qed.

Lemma delete_by_id_idem (k : Z) (rows : list Row) :
  (delete_by_id k (delete_by_id k rows).2).2 = (delete_by_id k rows).2.
Proof. unfold delete_by_id. cbn [snd]. rewrite list_filter_filter. apply list_filter_iff. tauto. Qed.

(** C17: a [PUT] whose row a concurrent [DELETE] removes between the
    [PUT]'s [SELECT] and its [UPDATE] answers 500 ([StaleDataError]: the
    [UPDATE] matched no row), not the 404 the specification gives for a
    missing item.  This race can happen on every table, for every stored
    item and every body that changes one of its fields; the [DELETE]
    answers its confirmation and the row is gone. *)
Theorem put_raced_by_delete (db : Db) (k : Z) (b : Pyd.ItemBase) (r : Row) :
  select_by_id k (db_rows db) = Some r -> empty_set (put_set r b) = false ->
  rtc pstep (mkPool db [start (PutItem k b); start (DeleteItem k)])
    (mkPool (mkDb (delete_by_id k (db_rows db)).2 (db_seq db))
       [TDone (Raise StaleDataError); TDone (Ret (BMessage deleted_message))]).
Proof.
  intros Hsel He.
  pose proof (update_by_id_missing k (put_set r b) _ (select_by_id_delete k (db_rows db))) as Hc.
  apply (run_sched_rtc [0; 1; 1; 1; 0]%nat). run_sched_steps. reflexivity.
Qed.

(** C27: two [DELETE]s of the same item that both pass their [SELECT]
    both answer the confirmation: the second [DELETE] matches no row,
    which SQLAlchemy only warns about, so neither request answers the
    404 the specification gives for a missing item.  This can happen for
    every stored item of every table. *)
Theorem delete_twice_both_confirm (db : Db) (k : Z) (r : Row) :
  select_by_id k (db_rows db) = Some r ->
  rtc pstep (mkPool db [start (DeleteItem k); start (DeleteItem k)])
    (mkPool (mkDb (delete_by_id k (db_rows db)).2 (db_seq db))
       [TDone (Ret (BMessage deleted_message)); TDone (Ret (BMessage deleted_message))]).
Proof.
  intros Hsel. pose proof (delete_by_id_idem k (db_rows db)) as Hidem.
  apply (run_sched_rtc [0; 1; 0; 0; 1; 1]%nat). run_sched_steps. reflexivity.
Qed.

(** Two [UPDATE]s of row [k] in turn, each with the [SET] clause its
    request computed against the same loaded row [r]. *)
Lemma update_twice (rows : list Row) (k : Z) (r : Row) (u1 u2 : ColsSet) :
  NoDup (ids rows) -> select_by_id k rows = Some r ->
  let rows1 := (update_by_id k u1 rows).2 in
  let rows2 := (update_by_id k u2 rows1).2 in
  let c := set_cols (set_cols (cols r) u1) u2 in
  (update_by_id k u1 rows).1 = 1%nat /\ (update_by_id k u2 rows1).1 = 1%nat /\
  select_by_id k rows2 = Some (with_cols k c) /\ view rows2 = <[k := c]> (view rows).
Proof.
  intros Hnd Hsel rows1 rows2 c.
  pose proof (select_by_id_update k u1 _ _ Hsel) as Hsel1.
  pose proof (select_by_id_update k u2 _ _ Hsel1) as Hsel2. rewrite cols_with_cols in Hsel2.
  assert (Hnd1 : NoDup (ids rows1)) by (unfold rows1; by rewrite ids_update_by_id).
  split_and!.
  - by rewrite (update_by_id_count k u1 rows Hnd (proj2 (select_by_id_Some _ _ _ Hsel))).
  - by rewrite (update_by_id_count k u2 rows1 Hnd1 (proj2 (select_by_id_Some _ _ _ Hsel1))).
  - exact Hsel2.
  - unfold rows2, rows1. rewrite (view_update_by_id_Some _ _ _ _ Hsel1), cols_with_cols.
    by rewrite (view_update_by_id_Some _ _ _ _ Hsel), insert_insert_eq.
Qed.

(** C12: two concurrent [PUT]s of the same item can both succeed and
    leave a row neither of them sent.  When both load the row [r] before
    either writes, each flush writes only the columns its own body
    changes with respect to [r]: the stored item takes the second
    request's changes over the first's, and keeps the first's changes
    to the columns the second leaves alone.  Both answer that item, so
    the first [PUT] answers fields it did not send.  The specification
    describes an update as the replacement of the item by the body. *)
Theorem put_fields_merge (db : Db) (k : Z) (b1 b2 : Pyd.ItemBase) (r : Row) :
  wf db -> select_by_id k (db_rows db) = Some r ->
  empty_set (put_set r b1) = false -> empty_set (put_set r b2) = false ->
  let c := set_cols (set_cols (cols r) (put_set r b1)) (put_set r b2) in
  exists rows', view rows' = <[k := c]> (view (db_rows db)) /\
    rtc pstep (mkPool db [start (PutItem k b1); start (PutItem k b2)])
      (mkPool (mkDb rows' (db_seq db))
         [TDone (serialized (with_cols k c)); TDone (serialized (with_cols k c))]).
Proof.
  intros [Hnd _] Hsel He1 He2 c.
  destruct (update_twice (db_rows db) k r (put_set r b1) (put_set r b2) Hnd Hsel)
    as (Hc1 & Hc2 & Hsel2 & Hview).
  eexists. split; [exact Hview|].
  apply (run_sched_rtc [0; 1; 0; 0; 1; 1; 0; 1]%nat). run_sched_steps. reflexivity.
Qed.

(** ** Witnesses *)

Lemma run_alone_serve_witness :
  run_alone (remaining (start (PutItem 1 pen2))) (start (PutItem 1 pen2)) pen_db =
  Some (serve (PutItem 1 pen2) pen_db).
Proof. apply run_alone_serve. apply (bool_decide_unpack _). vm_compute. reflexivity. Defined.

Lemma reachable_pool_inv_witness : pool_inv (mkPool pen_db [start (GetItem 1)]).
Proof.
  apply (reachable_pool_inv pen_db); [decide_good|].
  apply rtc_once. apply (pstep_arrive (GetItem 1) (mkPool pen_db [])).
Defined.

Lemma put_raced_by_delete_witness :
  rtc pstep (mkPool pen_db [start (PutItem 1 pen2); start (DeleteItem 1)])
    (mkPool (mkDb (delete_by_id 1 (db_rows pen_db)).2 (db_seq pen_db))
       [TDone (Raise StaleDataError); TDone (Ret (BMessage deleted_message))]).
Proof. apply (put_raced_by_delete pen_db 1 pen2 (row_of 1 pen)); vm_compute; reflexivity. Defined.

Lemma delete_twice_both_confirm_witness :
  rtc pstep (mkPool pen_db [start (DeleteItem 1); start (DeleteItem 1)])
    (mkPool (mkDb (delete_by_id 1 (db_rows pen_db)).2 (db_seq pen_db))
       [TDone (Ret (BMessage deleted_message)); TDone (Ret (BMessage deleted_message))]).
Proof. apply (delete_twice_both_confirm pen_db 1 (row_of 1 pen)). vm_compute. reflexivity. Defined.

Lemma post_refresh_after_delete_witness :
  rtc pstep (mkPool pen_db [start (PostItems pen2); start (DeleteItem (db_seq pen_db + 1))])
    (mkPool (mkDb (db_rows pen_db) (db_seq pen_db + 1))
       [TDone (Raise InvalidRequestError); TDone (Ret (BMessage deleted_message))]).
Proof. apply post_refresh_after_delete; [decide_good|vm_compute; reflexivity]. Defined.

(** One request renames the pen, the other changes its price. *)
Lemma put_fields_merge_witness :
  let c := set_cols (set_cols (cols (row_of 1 pen)) (put_set (row_of 1 pen) (Pyd.mkItemBase "Pencil" None 1.5%float)))
                    (put_set (row_of 1 pen) pen2) in
  exists rows', view rows' = <[1 := c]> (view (db_rows pen_db)) /\
    rtc pstep (mkPool pen_db [start (PutItem 1 (Pyd.mkItemBase "Pencil" None 1.5%float)); start (PutItem 1 pen2)])
      (mkPool (mkDb rows' (db_seq pen_db))
         [TDone (serialized (with_cols 1 c)); TDone (serialized (with_cols 1 c))]).
Proof.
  apply (put_fields_merge pen_db 1 (Pyd.mkItemBase "Pencil" None 1.5%float) pen2 (row_of 1 pen));
    [apply (bool_decide_unpack _)|..]; vm_compute; reflexivity.
Defined.

End Concurrent.
