(* ===== verification/Crud.v ===== *)
(** * Crud: the specification's contract and the service that implements it

    The specification (sections 3 and 4.2) describes the service as a
    store of items keyed by an id the storage assigns: create inserts
    under a new id, list answers a slice of the items in some order, get,
    update and delete act on the item of an id or fail with NotFound, and
    any storage error is a generic server error.  [astep] states that
    contract on an abstract state (the items by id, and the ids assigned
    so far), nondeterministic where the specification leaves a choice
    (which fresh id, which order).

    The contract is an interface, [CrudService] with its laws
    [CrudServiceOk]: a client that only knows a service satisfies them
    gets the contract for every sequence of requests, and the theorem on
    ids proved here for every such service.  The handlers of
    src/main.py ([serve] on a [Db]) are an instance: [abs] reads the
    items off the table's view and the assigned ids off [items_id_seq]. *)

From stdpp Require Import base list gmap sets strings.
From Corelib Require Import PrimFloat.
From S2P Require Import Prelude Schema Table Session Handlers App.

Module Crud.
Import Table Session Handlers App.
Local Open Scope Z_scope.

(** ** The contract *)

Record AState : Type := mkAState {
  a_items : gmap Z Pyd.ItemBase;
  a_used : gset Z              (** the ids assigned so far *)
}.

(** What a client reads off a response. *)
Inductive Answer : Type :=
  | AItem (i : Pyd.Item)
  | AItems (items : list Pyd.Item)
  | AMessage (m : string)
  | ANotFound
  | AError.

Definition answer (o : outcome Exc Body) : Answer :=
  match o with
  | Ret (BItem i) => AItem i
  | Ret (BItems items) => AItems items
  | Ret (BMessage m) => AMessage m
  | Raise _ => if Z.eqb (status o) 404 then ANotFound else AError
  end.

(** The items of a state, in the order of its map. *)
Definition item_list (st : AState) : list Pyd.Item :=
  (fun kb => Pyd.mkItem kb.2 kb.1) <$> map_to_list (a_items st).

(** The fields an update stores, against the fields it was given: the
    same, up to Python's [==] on the price. *)
Definition same_fields (b' b : Pyd.ItemBase) : Prop :=
  Pyd.nome b' = Pyd.nome b /\ Pyd.descricao b' = Pyd.descricao b /\
  (Pyd.preco b' = Pyd.preco b \/ PrimFloat.eqb (Pyd.preco b) (Pyd.preco b') = true).

Definition page_ok (skip limit : Z) : Prop := 0 <= skip <= INT8_MAX /\ 0 <= limit <= INT8_MAX.

Inductive astep : AState -> Req -> Answer -> AState -> Prop :=
  | a_create st b k :
      1 <= k <= INT4_MAX -> k ∉ a_used st -> a_items st !! k = None ->
      astep st (PostItems b) (AItem (Pyd.mkItem b k))
            (mkAState (<[k := b]> (a_items st)) ({[k]} ∪ a_used st))
  | a_create_full st b :
      (forall k, 1 <= k <= INT4_MAX -> k ∈ a_used st) ->
      astep st (PostItems b) AError st
  | a_list st skip limit l :
      page_ok (default 0 skip) (default 100 limit) -> l ≡ₚ item_list st ->
      astep st (GetItems skip limit)
            (AItems (take (Z.to_nat (default 100 limit)) (drop (Z.to_nat (default 0 skip)) l))) st
  | a_list_bad st skip limit :
      ~ page_ok (default 0 skip) (default 100 limit) -> astep st (GetItems skip limit) AError st
  | a_get st k b :
      a_items st !! k = Some b -> astep st (GetItem k) (AItem (Pyd.mkItem b k)) st
  | a_get_missing st k :
      a_items st !! k = None -> astep st (GetItem k) ANotFound st
  | a_put st k b b0 b' :
      a_items st !! k = Some b0 -> same_fields b' b ->
      astep st (PutItem k b) (AItem (Pyd.mkItem b' k))
            (mkAState (<[k := b']> (a_items st)) (a_used st))
  | a_put_missing st k b :
      a_items st !! k = None -> astep st (PutItem k b) ANotFound st
  | a_delete st k b0 m :
      a_items st !! k = Some b0 ->
      astep st (DeleteItem k) (AMessage m) (mkAState (base.delete k (a_items st)) (a_used st))
  | a_delete_missing st k :
      a_items st !! k = None -> astep st (DeleteItem k) ANotFound st.

(** A sequence of requests and the answers the contract allows. *)
Inductive atrace : AState -> list Req -> list Answer -> AState -> Prop :=
  | at_nil st : atrace st [] [] st
  | at_cons st r a st' rs ans st'' :
      astep st r a st' -> atrace st' rs ans st'' -> atrace st (r :: rs) (a :: ans) st''.

(** The ids the successful creations of a sequence answered. *)
Fixpoint created (rs : list Req) (ans : list Answer) : list Z :=
  match rs, ans with
  | PostItems _ :: rs', AItem i :: ans' => Pyd.id i :: created rs' ans'
  | _ :: rs', _ :: ans' => created rs' ans'
  | _, _ => []
  end.

(** ** The interface a service offers its clients *)

Class CrudService (Svc : Type) := {
  svc_serve : Req -> Svc -> outcome Exc Body * Svc;
  svc_abs : Svc -> AState;
  svc_inv : Svc -> Prop
}.

Class CrudServiceOk (Svc : Type) `{!CrudService Svc} : Prop := {
  svc_inv_serve (r : Req) (s : Svc) : svc_inv s -> svc_inv (svc_serve r s).2;
  svc_refines (r : Req) (s : Svc) :
    svc_inv s -> astep (svc_abs s) r (answer (svc_serve r s).1) (svc_abs (svc_serve r s).2)
}.

(** Requests served one after the other. *)
Fixpoint svc_run {Svc : Type} `{!CrudService Svc} (rs : list Req) (s : Svc) :
    list (outcome Exc Body) * Svc :=
  match rs with
  | [] => ([], s)
  | r :: rs' =>
      let '(o, s1) := svc_serve r s in
      let '(os, s2) := svc_run rs' s1 in (o :: os, s2)
  end.

(** ** The handlers as a service *)

(** The item a stored row holds, when it holds one. *)
Definition base_of_cols (c : Cols) : option Pyd.ItemBase :=
  match c with
  | (Some n, d, Some p) => Some (Pyd.mkItemBase n d p)
  | _ => None
  end.

(** The ids [items_id_seq] has handed out: [1] to its current value. *)
Definition issued (seq : Z) : gset Z := list_to_set (seqZ 1 seq).

Definition abs (db : Db) : AState :=
  mkAState (omap base_of_cols (view (db_rows db))) (issued (db_seq db)).

#[export] Instance db_service : CrudService Db := {|
  svc_serve := serve;
  svc_abs := abs;
  svc_inv := good
|}.

(** ** The abstraction *)

Lemma elem_of_issued (seq k : Z) : 0 <= seq -> k ∈ issued seq <-> 1 <= k <= seq.
Proof. intros Hs. unfold issued. rewrite elem_of_list_to_set, elem_of_seqZ. lia. Qed.

Lemma issued_succ (seq : Z) : 0 <= seq -> issued (seq + 1) = {[seq + 1]} ∪ issued seq.
Proof.
  intros Hs. apply set_eq. intros k.
  rewrite elem_of_union, elem_of_singleton, !elem_of_issued by lia. lia.
Qed.

Lemma base_of_cols_body (b : Pyd.ItemBase) : base_of_cols (body_cols b) = Some b.
Proof. by destruct b. Qed.

Lemma abs_lookup (db : Db) (k : Z) :
  a_items (abs db) !! k = view (db_rows db) !! k ≫= base_of_cols.
Proof. apply lookup_omap. Qed.

(** A row as the API writes it holds an item, the one it serialises to. *)
Lemma api_row_base (r : Row) :
  api_row r -> exists b, base_of_cols (cols r) = Some b /\ serialized r = Ret (BItem (Pyd.mkItem b (row_id r))).
Proof.
  intros [[n Hn] [p Hp]]. destruct r as [i nr d pr]; cbn in *; subst.
  eexists. split; reflexivity.
Qed.

Lemma abs_lookup_row (db : Db) (k : Z) (r : Row) :
  good db -> select_by_id k (db_rows db) = Some r ->
  exists b, a_items (abs db) !! k = Some b /\ serialized r = Ret (BItem (Pyd.mkItem b k)).
Proof.
  intros [_ Hapi] Hsel. destruct (select_by_id_Some _ _ _ Hsel) as [Hk _].
  assert (Hr : api_row r).
  { rewrite Forall_forall in Hapi. apply Hapi. unfold select_by_id in Hsel.
    apply list_elem_of_In. by eapply find_some. }
  destruct (api_row_base r Hr) as (b & Hb & Hs). exists b. split.
  - by rewrite abs_lookup, view_select_by_id, Hsel.
  - by rewrite Hs, Hk.
Qed.

Lemma abs_lookup_None (db : Db) (k : Z) :
  select_by_id k (db_rows db) = None -> a_items (abs db) !! k = None.
Proof. intros Hsel. by rewrite abs_lookup, view_select_by_id, Hsel. Qed.

(** ** Listing: the page is a slice of some order of the items *)

Lemma elem_of_item_list (st : AState) (i : Pyd.Item) :
  i ∈ item_list st <-> a_items st !! Pyd.id i = Some (Pyd.item_base i).
Proof.
  unfold item_list. rewrite list_elem_of_fmap. split.
  - intros ([k b] & -> & Hkb). by apply elem_of_map_to_list in Hkb.
  - intros Hi. exists (Pyd.id i, Pyd.item_base i). split; [by destruct i|].
    by apply elem_of_map_to_list.
Qed.

Lemma NoDup_item_list (st : AState) : NoDup (item_list st).
Proof.
  apply NoDup_fmap_2_strong; [|apply NoDup_map_to_list].
  intros [k b] [k' b'] _ _ [= -> ->]. done.
Qed.

(** The items the rows of a table serialise to, on a table of unique
    keys, are the items of its abstraction. *)
Lemma rows_items_perm (db : Db) (all : list Pyd.Item) :
  NoDup (ids (db_rows db)) -> mapM item_of_row (db_rows db) = Some all ->
  all ≡ₚ item_list (abs db).
Proof.
  intros Hnd Hm. pose proof (mapM_Some_1 _ _ _ Hm) as Hf.
  apply NoDup_Permutation; [|apply NoDup_item_list|].
  { apply (NoDup_fmap_1 Pyd.id). change (NoDup (map Pyd.id all)).
    by rewrite (mapM_item_of_row_ids _ _ Hm). }
  intros i. rewrite elem_of_item_list, abs_lookup. split.
  - intros (n & Hn)%list_elem_of_lookup.
    destruct (Forall2_lookup_r _ _ _ _ _ Hf Hn) as (r & Hr & Hri).
    apply item_of_row_Some in Hri. subst r.
    pose proof (view_lookup_elem _ _ Hnd (list_elem_of_lookup_2 _ _ _ Hr)) as Hv.
    cbn [row_id row_of with_cols] in Hv. rewrite Hv. apply base_of_cols_body.
  - destruct i as [ib iid]. cbn [Pyd.id Pyd.item_base].
    destruct (view (db_rows db) !! iid) as [c|] eqn:Hc; cbn; [|done]. intros Hb.
    apply elem_of_list_to_map_2, list_elem_of_fmap in Hc as (r & [= Hk Hcr] & Hr).
    apply list_elem_of_lookup in Hr as [n Hn].
    destruct (Forall2_lookup_l _ _ _ _ _ Hf Hn) as (i' & Hi' & Hri').
    apply list_elem_of_lookup_2 in Hi'. enough (i' = Pyd.mkItem ib iid) as <- by done.
    destruct r as [k [nm|] d [pr|]]; cbn in *; subst; try done.
    injection Hb as <-. by injection Hri' as <-.
Qed.

Lemma mapM_take_drop {A B} (f : A -> option B) (l : list A) (l' : list B) (n m : nat) :
  mapM f l = Some l' -> mapM f (take n (drop m l)) = Some (take n (drop m l')).
Proof. intros Hm%mapM_Some_1. by apply mapM_Some_2, Forall2_take, Forall2_drop. Qed.

(** ** Each route refines its step of the contract *)

Lemma answer_404 (o : outcome Exc Body) :
  o = Raise (HTTPException 404 not_found_detail) -> answer o = ANotFound.
Proof. by intros ->. Qed.

Lemma serve_post_astep (db : Db) (b : Pyd.ItemBase) :
  good db -> astep (abs db) (PostItems b) (answer (serve (PostItems b) db).1)
                   (abs (serve (PostItems b) db).2).
Proof.
  intros [Hwf Hapi]. pose proof Hwf as (_ & _ & Hseq). unfold serve; simpl.
  destruct (Z.ltb_spec (db_seq db) INT4_MAX) as [Hlt|Hge].
  - rewrite create_item_run by done. cbn [answer fst snd].
    assert (Hk : nextval (db_seq db) = Ret (db_seq db + 1)) by (apply nextval_Ret; lia).
    pose proof (wf_fresh db (db_seq db + 1) Hwf ltac:(lia)) as Hfresh.
    unfold abs, row_of; cbn [db_rows db_seq].
    rewrite (view_insert_row _ _ _ (insert_row_fresh db _ (body_cols b) Hwf Hk)).
    rewrite cols_with_cols, omap_insert, base_of_cols_body, issued_succ by lia.
    apply a_create; cbn [a_used a_items]; [lia|rewrite elem_of_issued by lia; lia|].
    rewrite lookup_omap. apply bind_None. left. apply eq_None_not_Some.
    by rewrite <- has_id_view, Hfresh.
  - rewrite create_item_run_exhausted by done. cbn.
    apply a_create_full. intros k Hk. apply elem_of_issued; lia.
Qed.

Lemma serve_list_astep (db : Db) (skip limit : option Z) :
  good db -> astep (abs db) (GetItems skip limit) (answer (serve (GetItems skip limit) db).1)
                   (abs (serve (GetItems skip limit) db).2).
Proof.
  intros [(Hnd & _ & _) Hapi]. unfold serve; simpl. rewrite read_items_run by done.
  destruct (select_page (default 0 skip) (default 100 limit) (db_rows db)) as [page|e] eqn:Hp.
  - pose proof Hp as (Hs & Hl & ->)%select_page_Ret.
    destruct (mapM_item_of_row_api _ Hapi) as [all Hall].
    rewrite (mapM_take_drop _ _ _ _ _ Hall). cbn [answer fst snd].
    apply a_list; [done|]. by apply rows_items_perm.
  - cbn. apply a_list_bad. intros [Hs Hl].
    assert (select_page (default 0 skip) (default 100 limit) (db_rows db) =
            Ret (take (Z.to_nat (default 100 limit)) (drop (Z.to_nat (default 0 skip)) (db_rows db))))
      by (by apply select_page_Ret). congruence.
Qed.

Lemma serve_get_astep (db : Db) (k : Z) :
  good db -> astep (abs db) (GetItem k) (answer (serve (GetItem k) db).1)
                   (abs (serve (GetItem k) db).2).
Proof.
  intros Hg. unfold serve; simpl. destruct (select_by_id k (db_rows db)) as [r|] eqn:Hsel.
  - destruct (abs_lookup_row db k r Hg Hsel) as (b & Hb & Hs).
    rewrite (read_item_run_found _ _ r), Hs by done. by apply a_get.
  - rewrite read_item_run_missing by done. apply a_get_missing. by apply abs_lookup_None.
Qed.

Lemma serve_put_astep (db : Db) (k : Z) (b : Pyd.ItemBase) :
  good db -> astep (abs db) (PutItem k b) (answer (serve (PutItem k b) db).1)
                   (abs (serve (PutItem k b) db).2).
Proof.
  intros Hg. unfold serve; simpl. destruct (select_by_id k (db_rows db)) as [r|] eqn:Hsel.
  - destruct (abs_lookup_row db k r Hg Hsel) as (b0 & Hb0 & _).
    rewrite (update_item_run_found _ _ r) by (done || apply Hg).
    rewrite set_cols_put_set, serialized_body. cbn [answer fst snd].
    unfold abs at 2; cbn [db_rows db_seq].
    rewrite (view_update_by_id_Some _ _ _ r), set_cols_put_set, omap_insert, base_of_cols_body
      by done.
    apply (a_put (abs db) k b b0); [done|]. split_and!; [done|done|apply kept_price_eq].
  - rewrite update_item_run_missing by done. apply a_put_missing. by apply abs_lookup_None.
Qed.

Lemma serve_delete_astep (db : Db) (k : Z) :
  good db -> astep (abs db) (DeleteItem k) (answer (serve (DeleteItem k) db).1)
                   (abs (serve (DeleteItem k) db).2).
Proof.
  intros Hg. unfold serve; simpl. destruct (select_by_id k (db_rows db)) as [r|] eqn:Hsel.
  - destruct (abs_lookup_row db k r Hg Hsel) as (b0 & Hb0 & _).
    rewrite (delete_item_run_found _ _ r) by done. cbn [answer fst snd].
    unfold abs at 2; cbn [db_rows db_seq]. rewrite view_delete_by_id, omap_delete.
    by apply (a_delete (abs db) k b0).
  - rewrite delete_item_run_missing by done. apply a_delete_missing. by apply abs_lookup_None.
Qed.

Lemma serve_astep (r : Req) (db : Db) :
  good db -> astep (abs db) r (answer (serve r db).1) (abs (serve r db).2).
Proof.
  destruct r; [apply serve_post_astep|apply serve_list_astep|apply serve_get_astep|
               apply serve_put_astep|apply serve_delete_astep].
Qed.

#[export] Instance db_service_ok : CrudServiceOk Db.
Proof. split; [apply serve_good|apply serve_astep]. Qed.

(** ** What a client gets from the interface *)

(** A step never forgets an assigned id. *)
Lemma astep_used (st st' : AState) (r : Req) (a : Answer) :
  astep st r a st' -> a_used st ⊆ a_used st'.
Proof. inversion 1; subst; cbn; set_solver. Qed.

(** A creation answers an id of [integer] that was not assigned, and
    assigns it. *)
Lemma astep_create (st st' : AState) (b : Pyd.ItemBase) (i : Pyd.Item) :
  astep st (PostItems b) (AItem i) st' ->
  1 <= Pyd.id i <= INT4_MAX /\ Pyd.id i ∉ a_used st /\ Pyd.id i ∈ a_used st'.
Proof. inversion 1; subst; cbn. split_and!; [lia|lia|done|set_solver]. Qed.

(** In any sequence the contract allows, the creations answer distinct
    ids, none assigned before the sequence, all assigned after it. *)
Lemma atrace_created (st st' : AState) (rs : list Req) (ans : list Answer) :
  atrace st rs ans st' ->
  NoDup (created rs ans) /\
  Forall (fun k => 1 <= k <= INT4_MAX /\ k ∉ a_used st /\ k ∈ a_used st') (created rs ans) /\
  a_used st ⊆ a_used st'.
Proof.
  induction 1 as [st|st r a st1 rs ans st2 Hs _ (Hnd & Hall & Hsub)];
    [split_and!; [constructor|constructor|done]|].
  pose proof (astep_used _ _ _ _ Hs) as Hsub1.
  assert (Hall' : Forall (fun k => 1 <= k <= INT4_MAX /\ k ∉ a_used st /\ k ∈ a_used st2)
                    (created rs ans)).
  { eapply Forall_impl; [exact Hall|]. intros k (? & ? & ?). split_and!; [lia|lia|set_solver|done]. }
  destruct r as [b| | | |], a as [i| | | |]; cbn [created];
    try (split_and!; [done|done|set_solver]).
  destruct (astep_create _ _ _ _ Hs) as (Hb & Hnew & Hin). split_and!.
  - constructor; [|done]. intros Hk. rewrite Forall_forall in Hall.
    by destruct (Hall _ Hk) as (_ & Hnot & _).
  - constructor; [split_and!; [lia|lia|done|set_solver]|done].
  - set_solver.
Qed.

Section Clients.
Context {Svc : Type} `{!CrudService Svc} `{!CrudServiceOk Svc}.

(** A service that satisfies the interface answers every sequence of
    requests as the contract allows. *)
Lemma svc_run_trace (rs : list Req) (s : Svc) :
  svc_inv s -> atrace (svc_abs s) rs (answer <$> (svc_run rs s).1) (svc_abs (svc_run rs s).2).
Proof.
  revert s. induction rs as [|r rs IH]; intros s Hs; cbn [svc_run]; [constructor|].
  pose proof (svc_refines r s Hs) as Hr. pose proof (svc_inv_serve r s Hs) as Hs'.
  destruct (svc_serve r s) as [o s1]. specialize (IH s1 Hs').
  destruct (svc_run rs s1) as [os s2]. by econstructor.
Qed.

End Clients.

(** ** The handlers against the contract *)

(** C7: every sequence of requests served by the handlers, from a table
    satisfying [good], is answered as the specification's contract
    allows: each creation under a fresh id of [integer], each list a
    slice of some order of the stored items, each read, update and delete
    on the stored item or NotFound, each failure a server error that
    changes nothing, and the items after each request those the contract
    gives. *)
Theorem serve_run_refines (rs : list Req) (db : Db) :
  good db -> atrace (abs db) rs (answer <$> (svc_run rs db).1) (abs (svc_run rs db).2).
Proof. intros Hg. exact (svc_run_trace rs db Hg). Qed.

(** C11: ids are never reused: in any sequence of requests on a table
    satisfying [good], the successful creations answer pairwise distinct
    ids, each greater than every id handed out before the sequence, so an
    id whose item was deleted is never given to a new item. *)
Theorem serve_ids_never_reused (rs : list Req) (db : Db) :
  good db ->
  NoDup (created rs (answer <$> (svc_run rs db).1)) /\
  Forall (fun k => db_seq db < k <= INT4_MAX) (created rs (answer <$> (svc_run rs db).1)).
Proof.
  intros Hg. pose proof Hg as [(_ & _ & Hseq) _].
  assert (Htr : atrace (abs db) rs (answer <$> (svc_run rs db).1) (abs (svc_run rs db).2))
    by exact (svc_run_trace rs db Hg).
  destruct (atrace_created _ _ _ _ Htr) as (Hnd & Hall & _).
  split; [done|]. eapply Forall_impl; [exact Hall|]. intros k (Hk & Hnot & _).
  cbn in Hnot. rewrite elem_of_issued in Hnot by lia. lia.
Qed.

(** ** Witnesses *)

Lemma serve_run_refines_witness :
  atrace (abs pen_db) [PostItems pen2; DeleteItem 1; GetItem 1]
    (answer <$> (svc_run [PostItems pen2; DeleteItem 1; GetItem 1] pen_db).1)
    (abs (svc_run [PostItems pen2; DeleteItem 1; GetItem 1] pen_db).2).
Proof. apply serve_run_refines. decide_good. Defined.

Lemma serve_ids_never_reused_witness :
  NoDup (created [DeleteItem 1; PostItems pen2; PostItems pen]
           (answer <$> (svc_run [DeleteItem 1; PostItems pen2; PostItems pen] pen_db).1)) /\
  Forall (fun k => db_seq pen_db < k <= INT4_MAX)
    (created [DeleteItem 1; PostItems pen2; PostItems pen]
       (answer <$> (svc_run [DeleteItem 1; PostItems pen2; PostItems pen] pen_db).1)).
Proof. apply serve_ids_never_reused. decide_good. Defined.

End Crud.
